(** * claudex front-end components: an executable model and its properties

    The repository is a set of React view components.  Each component is
    modelled the way React runs it: a render function from props and local
    state to a view, and event handlers that update the local state and call
    the callbacks received as props.  The values held by [useState] are the
    fields of a per-instance state record; calls of callback props are
    appended to a log, so that "called exactly once with x" is a statement
    about that log.  Closures placed in the view ([onClick], [onSelect],
    ...) are represented by a constructor naming the closure together with
    what it captured, and a [run] function gives their body.

    Modelled components:
    - [WebPreview]           (components/editor/web-preview/Preview.tsx)
    - [Dropdown]             (the generic dropdown, [DropdownInner])
    - [ToolPermissionModal]  (the permission dialog)

    Numbers are integers ([Z]): the only numbers the modelled code inspects
    are port numbers.  Strings are [string]; a character stands for one code
    unit in the range U+0000..U+00FF. *)

From Stdlib Require Import ZArith.
From stdpp Require Import base tactics option list strings gmap.

#[local] Set Warnings "-register-all".
#[local] Open Scope string_scope.

(** ** JavaScript values and the operators the components use *)

Module JS.

(** Run-time values.  An object is the finite map of the properties that a
    property read or the [in] operator can see on it. *)
Inductive value : Type :=
  | VUndefined
  | VNull
  | VBoolean (b : bool)
  | VNumber (n : Z)
  | VString (s : string)
  | VFunction (name : string)
  | VObject (props : gmap string value).

(** [typeof v] *)
Definition typeof (v : value) : string :=
  match v with
  | VUndefined => "undefined"
  | VNull => "object"
  | VBoolean _ => "boolean"
  | VNumber _ => "number"
  | VString _ => "string"
  | VFunction _ => "function"
  | VObject _ => "object"
  end.

(** [v !== null] *)
Definition is_not_null (v : value) : bool :=
  match v with VNull => false | _ => true end.

(** [k in v], for a [v] that is an object (the operator throws on
    primitives; the code only reaches it behind the [typeof] test). *)
Definition has_property (k : string) (v : value) : bool :=
  match v with
  | VObject props => bool_decide (is_Some (props !! k))
  | _ => false
  end.

(** The property read [v.k].  [None] is the TypeError raised on [null] and
    [undefined].  On the other primitives the read goes to the wrapper's
    prototype; the names read by the components ([type], [data], [label])
    are not defined there, so the read yields [undefined]. *)
Definition get (v : value) (k : string) : option value :=
  match v with
  | VUndefined | VNull => None
  | VObject props => Some (default VUndefined (props !! k))
  | _ => Some VUndefined
  end.

(** [v === s] for a string literal [s] *)
Definition strict_eq_string (v : value) (s : string) : bool :=
  match v with
  | VString s' => bool_decide (s' = s)
  | _ => false
  end.

(** Whether the string conversion of [v] in a template literal raises a
    TypeError for certain: [v] is an object on which neither [toString] nor
    [valueOf] is a function.  Primitives and functions convert; on an object
    that has such a method the outcome is that of the method's code, which
    the components do not see, and the conversion is taken to complete. *)
Definition is_callable (o : option value) : bool :=
  match o with Some (VFunction _) => true | _ => false end.

Definition to_string_throws (v : value) : bool :=
  match v with
  | VObject props =>
      negb (is_callable (props !! "toString")) && negb (is_callable (props !! "valueOf"))
  | _ => false
  end.

(** Truthiness of a number and of a string. *)
Definition truthy_number (n : Z) : bool := negb (n =? 0)%Z.
Definition truthy_string (s : string) : bool := negb (bool_decide (s = "")).

(** WhiteSpace and LineTerminator code units below U+0100: TAB, LF, VT, FF,
    CR, SP and NBSP. *)
Definition is_white_space (c : Ascii.ascii) : bool :=
  let n := Ascii.nat_of_ascii c in
  ((9 <=? n)%nat && (n <=? 13)%nat) || (n =? 32)%nat || (n =? 160)%nat.

Fixpoint trimStart (s : string) : string :=
  match s with
  | EmptyString => EmptyString
  | String c s' => if is_white_space c then trimStart s' else s
  end.

Definition trimEnd (s : string) : string :=
  String.rev (trimStart (String.rev s)).

(** [s.trim()] *)
Definition trim (s : string) : string := trimEnd (trimStart s).

End JS.

(** ** WebPreview *)

Module WebPreview.

(** Modelled from the spec: [PortInfo] is declared in [@/types], which is not
    among the sources.  "Port info: {port number, previewUrl}"; these are the
    two fields the component reads. *)
Record PortInfo : Type := { port : Z; previewUrl : string }.

Record WebPreviewProps : Type := {
  sandboxId : option string;
  isActive : bool                       (* defaults to false *)
}.

(** Modelled from the spec: [usePreviewLinksQuery] of [@/hooks/queries] is
    not among the sources.  It is "a query abstraction keyed by sandbox id
    and an enabled flag, returning {data, isLoading, refetch}"; its result is
    an input of the render, and calls of [refetch] are logged. *)
Record QueryResult : Type := {
  data : option (list PortInfo);
  isLoading : bool
}.

(** Local state ([useState<number | null>(null)]) and the log of [refetch]
    calls. *)
Record World : Type := {
  selectedPortId : option Z;
  refetchCalls : nat
}.

Definition initial : World := {| selectedPortId := None; refetchCalls := 0 |}.

(** [!sandboxId]: absent or the empty string. *)
Definition no_sandbox (sandboxId : option string) : bool :=
  match sandboxId with
  | None => true
  | Some s => negb (JS.truthy_string s)
  end.

(** Arguments given to the query hook: [sandboxId || ''] and
    [enabled: !!sandboxId && isActive]. *)
Definition queryKey (props : WebPreviewProps) : string :=
  default "" (sandboxId props).
Definition queryEnabled (props : WebPreviewProps) : bool :=
  negb (no_sandbox (sandboxId props)) && isActive props.

(** [p.port === selectedPortId] *)
Definition port_matches (selectedPortId : option Z) (p : PortInfo) : bool :=
  match selectedPortId with
  | Some n => (port p =? n)%Z
  | None => false
  end.

(** [ports.length > 0 ? ports.find(...) || ports[0] : null] *)
Definition selectedPort (ports : list PortInfo) (selectedPortId : option Z)
  : option PortInfo :=
  if (0 <? length ports)%nat then
    match find (port_matches selectedPortId) ports with
    | Some p => Some p
    | None => ports !! 0
    end
  else None.

(** [setSelectedPortId(port?.port || null)] *)
Definition setSelectedPort (p : option PortInfo) (w : World) : World :=
  let id :=
    match p with
    | Some p => if JS.truthy_number (port p) then Some (port p) else None
    | None => None
    end in
  {| selectedPortId := id; refetchCalls := refetchCalls w |}.

(** [fetchPorts]: [refetch()] *)
Definition fetchPorts (w : World) : World :=
  {| selectedPortId := selectedPortId w; refetchCalls := S (refetchCalls w) |}.

(** The two closures the component places in its view. *)
Inductive Callback : Type := FetchPorts | SetSelectedPort.

Definition run (cb : Callback) (arg : option PortInfo) (w : World) : World :=
  match cb with
  | FetchPorts => fetchPorts w
  | SetSelectedPort => setSelectedPort arg w
  end.

Record RefreshButton : Type := {
  onClick : Callback;
  disabled : bool;
  spinning : bool
}.

Record PanelProps : Type := {
  panel_previewUrl : option string;
  panel_ports : list PortInfo;
  panel_selectedPort : option PortInfo;
  onPortChange : Callback;
  onRefreshPorts : Callback
}.

Inductive View : Type :=
  | NoSandbox                             (* "No sandbox connected" *)
  | EmptyPorts (refresh : RefreshButton)  (* "No open ports detected" *)
  | PortsPanel (panel : PanelProps).

Definition render (props : WebPreviewProps) (q : QueryResult) (w : World) : View :=
  let ports := default [] (data q) in
  let loading := isLoading q in
  let selected := selectedPort ports (selectedPortId w) in
  if no_sandbox (sandboxId props) then NoSandbox
  else if (length ports =? 0)%nat then
    EmptyPorts {| onClick := FetchPorts; disabled := loading; spinning := loading |}
  else
    PortsPanel {| panel_previewUrl := previewUrl <$> selected;
                  panel_ports := ports;
                  panel_selectedPort := selected;
                  onPortChange := SetSelectedPort;
                  onRefreshPorts := FetchPorts |}.

(** Where a view hands out a callback: the component's own button, or a
    prop of [Panel]. *)
Inductive Slot : Type := OwnButton | PanelOnPortChange | PanelOnRefreshPorts.

Definition wired (v : View) : list (Slot * Callback) :=
  match v with
  | NoSandbox => []
  | EmptyPorts b => [(OwnButton, onClick b)]
  | PortsPanel p =>
      [(PanelOnPortChange, onPortChange p); (PanelOnRefreshPorts, onRefreshPorts p)]
  end.

Definition is_refresh (cb : Callback) : bool :=
  match cb with FetchPorts => true | SetSelectedPort => false end.

(** The view hands the refresh action to something the user can reach. *)
Definition refresh_reachable (v : View) : bool :=
  existsb (fun sc => is_refresh sc.2) (wired v).

Definition is_empty_state (v : View) : bool :=
  match v with EmptyPorts _ => true | _ => false end.

(** Sample data for the examples below. *)
Definition port3000 : PortInfo := {| port := 3000; previewUrl := "https://3000.preview" |}.
Definition port8080 : PortInfo := {| port := 8080; previewUrl := "https://8080.preview" |}.
Definition port0 : PortInfo := {| port := 0; previewUrl := "https://0.preview" |}.
Definition connected : WebPreviewProps := {| sandboxId := Some "sbx-1"; isActive := true |}.
Definition fetched (ports : list PortInfo) : QueryResult :=
  {| data := Some ports; isLoading := false |}.

(** A run of the callbacks the view hands out, each with the argument it is
    called with ([fetchPorts] ignores its argument). *)
Definition runs (cs : list (Callback * option PortInfo)) (w : World) : World :=
  foldl (λ w c, run c.1 c.2 w) w cs.

End WebPreview.

(** ** Dropdown *)

Module Dropdown.

(** [DropdownItemType<T>]: the entries of a grouped collection as callers
    build them, and the object each one is at run time. *)
Inductive DropdownItemType : Type :=
  | Item (data : JS.value)
  | Header (label : string).

Definition to_value (e : DropdownItemType) : JS.value :=
  match e with
  | Item data =>
      JS.VObject (<["type" := JS.VString "item"]> (<["data" := data]> ∅))
  | Header label =>
      JS.VObject (<["type" := JS.VString "header"]> (<["label" := JS.VString label]> ∅))
  end.

(** [items.length > 0 && typeof items[0] === 'object' && items[0] !== null
    && 'type' in items[0]] *)
Definition isGroupedItems (items : list JS.value) : bool :=
  let first := default JS.VUndefined (items !! 0) in
  (0 <? length items)%nat
  && bool_decide (JS.typeof first = "object")
  && JS.is_not_null first
  && JS.has_property "type" first.

(** Markup returned by the caller's [renderItem]. *)
Definition ReactNode : Type := string.

(** The props the list and the handlers depend on.  [leftIcon], [width],
    [dropdownPosition] and [compactOnMobile] only select class names of the
    trigger and of the popover. *)
Record DropdownProps : Type := {
  value : JS.value;
  items : list JS.value;
  getItemKey : JS.value → string;
  getItemLabel : JS.value → string;
  getItemShortLabel : option (JS.value → string);
  renderItem : option (JS.value → bool → ReactNode);
  itemClassName : option string;
  disabled : bool                       (* defaults to false *)
}.

(** Modelled from the spec: [useDropdown] of [@/hooks/useDropdown] is not
    among the sources.  The component "owns only open/closed state", a
    boolean: [isOpen], written by [setIsOpen].  Beside it, the log of the
    arguments [onSelect] was called with. *)
Record World : Type := {
  isOpen : bool;
  onSelectCalls : list JS.value
}.

(** The closures of the view: the trigger's [onClick], and the [onSelect]
    of the row rendered for [data]. *)
Inductive Handler : Type :=
  | Toggle
  | Select (data : JS.value).

Definition run (props : DropdownProps) (h : Handler) (w : World) : World :=
  match h with
  | Toggle =>
      (* !disabled && setIsOpen(!isOpen) *)
      if disabled props then w
      else {| isOpen := negb (isOpen w); onSelectCalls := onSelectCalls w |}
  | Select data =>
      (* onSelect(data); setIsOpen(false) *)
      {| isOpen := false; onSelectCalls := onSelectCalls w ++ [data] |}
  end.

(** The class that ends a header's [className]: [index === 0 ?
    'border-t-0' : 'mt-1'].  Every header carries [border-t]; [border-t-0]
    takes the top border away. *)
Inductive HeaderEdge : Type := border_t_0 | mt_1.

Inductive ItemChild : Type :=
  | Custom (node : ReactNode)                     (* renderItem(item, isSelected) *)
  | LabelSpan (text : string) (highlighted : bool).

(** The children of the list container: header [div]s and [SelectItem]
    rows with the props the component gives them ([SelectItem] itself is in
    [@/components/ui]; selecting a row is running its [onSelect]).  The
    React key of a header ([header-<label>]) plays no part in what is
    displayed and is not kept in the element; that computing it can throw
    is part of [render_grouped_item]. *)
Inductive Element : Type :=
  | HeaderDiv (label : JS.value) (edge : HeaderEdge)
  | SelectItem (key : string) (isSelected : bool) (onSelect : Handler)
               (className : string) (child : ItemChild).

(** [itemClassName || fallback] *)
Definition class_or (itemClassName : option string) (fallback : string) : string :=
  match itemClassName with
  | Some c => if JS.truthy_string c then c else fallback
  | None => fallback
  end.

Definition item_child (props : DropdownProps) (data : JS.value) (isSelected : bool)
  : ItemChild :=
  match renderItem props with
  | Some render => Custom (render data isSelected)
  | None => LabelSpan (getItemLabel props data) isSelected
  end.

(** The row of [data]: lines 95-120 with [fallback] the grouped class, lines
    123-148 with the flat one. *)
Definition select_item (props : DropdownProps) (fallback : string) (data : JS.value)
  : Element :=
  let isSelected :=
    bool_decide (getItemKey props data = getItemKey props (value props)) in
  SelectItem (getItemKey props data) isSelected (Select data)
             (class_or (itemClassName props) fallback)
             (item_child props data isSelected).

(** The callback of the grouped [items.map((item, index) => ...)].  [None]
    is a TypeError: on the read of [item.type] from [null] or [undefined],
    or on the conversion of the label in the header's key
    [`header-${item.label}`]. *)
Definition render_grouped_item (props : DropdownProps) (index : nat) (item : JS.value)
  : option Element :=
  ty ← JS.get item "type";
  if JS.strict_eq_string ty "header" then
    label ← JS.get item "label";
    if JS.to_string_throws label then None
    else Some (HeaderDiv label (if (index =? 0)%nat then border_t_0 else mt_1))
  else
    data ← JS.get item "data";
    Some (select_item props "flex items-center gap-2.5 pl-3" data).

(** The callback of the flat [items.map((item) => ...)]. *)
Definition render_flat_item (props : DropdownProps) (item : JS.value) : Element :=
  select_item props "flex items-center gap-2.5" item.

(** [isGroupedItems(items) ? items.map(...) : items.map(...)]; [None] when a
    callback throws. *)
Definition render_items (props : DropdownProps) : option (list Element) :=
  if isGroupedItems (items props) then
    mapM id (imap (render_grouped_item props) (items props))
  else
    Some (render_flat_item props <$> items props).

Record Trigger : Type := {
  trigger_label : string;
  trigger_disabled : bool;
  trigger_onClick : Handler;
  chevron : option bool                  (* rotated when open; absent when disabled *)
}.

Record View : Type := {
  trigger : Trigger;
  menu : option (list Element)           (* isOpen && !disabled && ... *)
}.

Definition render (props : DropdownProps) (w : World) : option View :=
  let t := {| trigger_label :=
                match getItemShortLabel props with
                | Some short => short (value props)
                | None => getItemLabel props (value props)
                end;
              trigger_disabled := disabled props;
              trigger_onClick := Toggle;
              chevron := if disabled props then None else Some (isOpen w) |} in
  if isOpen w && negb (disabled props) then
    els ← render_items props;
    Some {| trigger := t; menu := Some els |}
  else Some {| trigger := t; menu := None |}.

(** Readings of a rendered list. *)
Definition is_selected (e : Element) : bool :=
  match e with
  | SelectItem _ isSelected _ _ _ => isSelected
  | HeaderDiv _ _ => false
  end.

Definition selected_count (els : list Element) : nat :=
  length (filter (λ e, is_selected e = true) els).

Definition is_header (e : Element) : bool :=
  match e with HeaderDiv _ _ => true | SelectItem _ _ _ _ _ => false end.

Definition shows_top_border (e : Element) : bool :=
  match e with
  | HeaderDiv _ mt_1 => true
  | HeaderDiv _ border_t_0 => false
  | SelectItem _ _ _ _ _ => false
  end.

(** The header that opens the first group of a rendered list. *)
Definition first_header (els : list Element) : option Element :=
  find is_header els.

(** The data of the [item] entries of a grouped collection, in order. *)
Definition item_data (g : list DropdownItemType) : list JS.value :=
  omap (λ e, match e with Item d => Some d | Header _ => None end) g.

Definition handler_of (e : Element) : option Handler :=
  match e with
  | SelectItem _ _ onSelect _ _ => Some onSelect
  | HeaderDiv _ _ => None
  end.

(** What the grouped callback returns on a well-typed entry. *)
Definition render_entry (props : DropdownProps) (index : nat) (e : DropdownItemType)
  : Element :=
  match e with
  | Header label =>
      HeaderDiv (JS.VString label) (if (index =? 0)%nat then border_t_0 else mt_1)
  | Item data => select_item props "flex items-center gap-2.5 pl-3" data
  end.

(** Sample data for the examples below: items are strings, keyed and
    labelled by themselves. *)
Definition string_of (v : JS.value) : string :=
  match v with JS.VString s => s | _ => "" end.

Definition sample (value : JS.value) (items : list JS.value) : DropdownProps :=
  {| value := value; items := items;
     getItemKey := string_of; getItemLabel := string_of;
     getItemShortLabel := None; renderItem := None;
     itemClassName := None; disabled := false |}.

Definition A : JS.value := JS.VString "A".
Definition B : JS.value := JS.VString "B".

(** The scenario of the specification: a header followed by two items,
    with [A] the current value, and the popover open. *)
Definition recent : list DropdownItemType := [Header "Recent"; Item A; Item B].
Definition scenario : DropdownProps := sample A (to_value <$> recent).
Definition opened : World := {| isOpen := true; onSelectCalls := [] |}.

(** An item ahead of the only header. *)
Definition late_header : list DropdownItemType := [Item A; Header "Recent"; Item B].

(** What the user can do on the rendered dropdown: click the trigger, or
    select the row at a given position of the open list.  The trigger's
    handler tests [disabled] itself.  A position that holds a header, or no
    element, or a list that is not on screen, gives nothing to select. *)
Inductive Event : Type :=
  | ClickTrigger
  | SelectRow (index : nat).

Definition dispatch (props : DropdownProps) (ev : Event) (w : World) : World :=
  match render props w with
  | None => w
  | Some view =>
      match ev with
      | ClickTrigger => run props (trigger_onClick (trigger view)) w
      | SelectRow index =>
          match menu view with
          | Some els =>
              match els !! index ≫= handler_of with
              | Some h => run props h w
              | None => w
              end
          | None => w
          end
      end
  end.

Definition session (props : DropdownProps) (evs : list Event) (w : World) : World :=
  foldl (λ w ev, dispatch props ev w) w evs.

(** A flat collection of account records, each with a [type] field. *)
Definition account (name : string) : JS.value :=
  JS.VObject (<["type" := JS.VString "user"]> (<["name" := JS.VString name]> ∅)).
Definition name_of (v : JS.value) : string :=
  match JS.get v "name" with
  | Some (JS.VString s) => s
  | _ => "?"
  end.
Definition accounts : DropdownProps :=
  {| value := account "ann"; items := [account "ann"; account "bob"];
     getItemKey := name_of; getItemLabel := name_of;
     getItemShortLabel := None; renderItem := None;
     itemClassName := None; disabled := false |}.

(** [null] and [undefined], on which a property read throws. *)
Definition is_nullish (v : JS.value) : bool :=
  match v with JS.VUndefined | JS.VNull => true | _ => false end.


End Dropdown.

(** ** ToolPermissionModal *)

Module ToolPermissionModal.

(** Modelled from the spec: [PermissionRequest] is declared in [@/types],
    which is not among the sources.  "{tool name, tool input: mapping of
    argument name to arbitrary value}"; the component reads [tool_name] and
    [tool_input], and copes with an absent [tool_input]. *)
Record PermissionRequest : Type := {
  tool_name : string;
  tool_input : option (list (string * JS.value))
}.

Record ToolPermissionModalProps : Type := {
  request : option PermissionRequest;
  isLoading : bool                      (* defaults to false *)
}.

(** A call of one of the two callback props. *)
Inductive Call : Type :=
  | onApprove
  | onReject (alternativeInstruction : option string).

(** The two [useState] cells and the log of callback calls. *)
Record World : Type := {
  showRejectInput : bool;
  alternativeInstruction : string;
  calls : list Call
}.

Definition initial : World :=
  {| showRejectInput := false; alternativeInstruction := ""; calls := [] |}.

Definition handleReject (w : World) : World :=
  if showRejectInput w && JS.truthy_string (JS.trim (alternativeInstruction w)) then
    {| showRejectInput := false;
       alternativeInstruction := "";
       calls := calls w ++ [onReject (Some (JS.trim (alternativeInstruction w)))] |}
  else
    {| showRejectInput := true;
       alternativeInstruction := alternativeInstruction w;
       calls := calls w |}.

Definition handleJustReject (w : World) : World :=
  {| showRejectInput := false;
     alternativeInstruction := "";
     calls := calls w ++ [onReject None] |}.

(** The textarea's [onChange]: [setAlternativeInstruction(e.target.value)] *)
Definition setAlternativeInstruction (text : string) (w : World) : World :=
  {| showRejectInput := showRejectInput w;
     alternativeInstruction := text;
     calls := calls w |}.

(** What a button's [onClick] is bound to. *)
Inductive Handler : Type := HandleReject | HandleJustReject | OnApprove.

Definition run (h : Handler) (w : World) : World :=
  match h with
  | HandleReject => handleReject w
  | HandleJustReject => handleJustReject w
  | OnApprove =>
      {| showRejectInput := showRejectInput w;
         alternativeInstruction := alternativeInstruction w;
         calls := calls w ++ [onApprove] |}
  end.

Record Button : Type := {
  label : string;
  onClick : Handler;
  disabled : bool
}.

Record TextArea : Type := {
  text : string;
  text_disabled : bool
}.

(** The dialog.  Parameter values are kept as they are; their formatting
    ([formatValue], [MarkDown]) only affects the text shown. *)
Record View : Type := {
  tool : string;
  parameters : list (string * JS.value);   (* empty: "No parameters" *)
  rejectInput : option TextArea;
  buttons : list Button
}.

(** The component body: [null] without a request. *)
Definition render (props : ToolPermissionModalProps) (w : World) : option View :=
  match request props with
  | None => None
  | Some r =>
      Some {|
        tool := tool_name r;
        parameters := default [] (tool_input r);
        rejectInput :=
          if showRejectInput w then
            Some {| text := alternativeInstruction w; text_disabled := isLoading props |}
          else None;
        buttons :=
          if showRejectInput w then
            [ {| label := "Just Reject"; onClick := HandleJustReject;
                 disabled := isLoading props |};
              {| label := "Send Instructions"; onClick := HandleReject;
                 disabled :=
                   isLoading props
                   || negb (JS.truthy_string (JS.trim (alternativeInstruction w))) |} ]
          else
            [ {| label := "Reject"; onClick := HandleReject;
                 disabled := isLoading props |};
              {| label := "Approve"; onClick := OnApprove;
                 disabled := isLoading props |} ]
      |}
  end.

(** Modelled from the spec: [Button] of [@/components/ui] is not among the
    sources.  "Disabled state ([isLoading]) suppresses all actions": a
    press of a disabled button runs no handler, a press of an enabled one
    runs its [onClick]. *)
Definition click (b : Button) (w : World) : World :=
  if disabled b then w else run (onClick b) w.

(** What the user can do on the rendered dialog: press the button with a
    given label, or replace the content of the textarea (a disabled
    textarea takes no input). *)
Inductive Event : Type :=
  | Press (label : string)
  | Input (text : string).

Definition dispatch (props : ToolPermissionModalProps) (ev : Event) (w : World)
  : World :=
  match render props w with
  | None => w
  | Some view =>
      match ev with
      | Press l =>
          match find (λ b, bool_decide (label b = l)) (buttons view) with
          | Some b => click b w
          | None => w
          end
      | Input s =>
          match rejectInput view with
          | Some area =>
              if text_disabled area then w else setAlternativeInstruction s w
          | None => w
          end
      end
  end.

(** A run of the component: each step is an event received under the props
    of the render that was on screen. *)
Definition session (steps : list (ToolPermissionModalProps * Event)) (w : World)
  : World :=
  foldl (λ w step, dispatch step.1 step.2 w) w steps.

(** A dialog shown for [r], idle or loading, and the hidden dialog; sample
    requests for the examples below. *)
Definition bash : PermissionRequest :=
  {| tool_name := "Bash";
     tool_input := Some [("command", JS.VString "ls")] |}.
Definition edit : PermissionRequest :=
  {| tool_name := "Edit"; tool_input := None |}.
Definition asking (r : PermissionRequest) : ToolPermissionModalProps :=
  {| request := Some r; isLoading := false |}.
Definition loading (r : PermissionRequest) : ToolPermissionModalProps :=
  {| request := Some r; isLoading := true |}.
Definition hidden : ToolPermissionModalProps :=
  {| request := None; isLoading := false |}.

(** The state in which the dialog can offer Approve holds no text. *)
Definition tidy (w : World) : Prop :=
  showRejectInput w = false → alternativeInstruction w = "".

End ToolPermissionModal.

(** ** GeneralSettingsTab *)

Module GeneralSettingsTab.

(** Modelled from the spec: [GeneralSecretFieldConfig] is declared in
    [@/types], which is not among the sources.  "Field descriptor: {key,
    label, description, placeholder, helperText}". *)
Record GeneralSecretFieldConfig : Type := {
  key : string;
  label : string;
  description : string;
  placeholder : string;
  helperText : string
}.

(** [settings] and [revealedFields] are objects read by field key; a read of
    a key that is not there gives [undefined]. *)
Record GeneralSettingsTabProps : Type := {
  fields : list GeneralSecretFieldConfig;
  settings : gmap string JS.value;
  revealedFields : gmap string JS.value
}.

Definition read (o : gmap string JS.value) (k : string) : JS.value :=
  default JS.VUndefined (o !! k).

(** [v ?? d] *)
Definition nullish_or (v d : JS.value) : JS.value :=
  match v with
  | JS.VUndefined | JS.VNull => d
  | _ => v
  end.

(** A call of one of the four callback props. *)
Inductive Call : Type :=
  | onSecretChange (field : string) (value : string)
  | onToggleVisibility (field : string)
  | onDeleteAllChats
  | onNotificationSoundChange (enabled : bool).

(** The closures handed to [SecretInput], with the field key each one
    captured, and what a call of each does.  The component has no state: a
    handler only calls a callback. *)
Inductive ChangeHandler : Type :=
  | SecretChange (field : string).        (* (value) => onSecretChange(field.key, value) *)

Inductive ToggleHandler : Type :=
  | ToggleVisibility (field : string).    (* () => onToggleVisibility(field.key) *)

Definition change (h : ChangeHandler) (value : string) (log : list Call) : list Call :=
  match h with SecretChange field => log ++ [onSecretChange field value] end.

Definition toggle (h : ToggleHandler) (log : list Call) : list Call :=
  match h with ToggleVisibility field => log ++ [onToggleVisibility field] end.

(** [Switch] and the Delete All [Button] receive the callback props
    themselves. *)
Definition checkedChange (enabled : bool) (log : list Call) : list Call :=
  log ++ [onNotificationSoundChange enabled].

Definition deleteClick (log : list Call) : list Call :=
  log ++ [onDeleteAllChats].

(** The block rendered for one field: its React key, the heading, and the
    props of its [SecretInput]. *)
Record SecretRow : Type := {
  row_key : string;
  row_label : string;
  row_description : string;
  input_value : JS.value;
  input_placeholder : string;
  input_isVisible : JS.value;
  input_onChange : ChangeHandler;
  input_onToggleVisibility : ToggleHandler;
  input_helperText : string
}.

Record View : Type := {
  secrets : list SecretRow;
  sound_checked : JS.value
}.

Definition render_field (props : GeneralSettingsTabProps)
    (field : GeneralSecretFieldConfig) : SecretRow :=
  {| row_key := key field;
     row_label := label field;
     row_description := description field;
     input_value := nullish_or (read (settings props) (key field)) (JS.VString "");
     input_placeholder := placeholder field;
     input_isVisible := read (revealedFields props) (key field);
     input_onChange := SecretChange (key field);
     input_onToggleVisibility := ToggleVisibility (key field);
     input_helperText := helperText field |}.

Definition render (props : GeneralSettingsTabProps) : View :=
  {| secrets := render_field props <$> fields props;
     sound_checked :=
       nullish_or (read (settings props) "notification_sound_enabled")
                  (JS.VBoolean true) |}.

(** Sample data for the examples below. *)
Definition e2b : GeneralSecretFieldConfig :=
  {| key := "e2b_api_key"; label := "E2B API Key"; description := "Sandbox key";
     placeholder := "e2b_..."; helperText := "" |}.
Definition github : GeneralSecretFieldConfig :=
  {| key := "github_personal_access_token"; label := "GitHub Token";
     description := "Repository access"; placeholder := "ghp_..."; helperText := "" |}.
Definition fresh_install : GeneralSettingsTabProps :=
  {| fields := [e2b; github];
     settings := <["github_personal_access_token" := JS.VNull]> ∅;
     revealedFields := ∅ |}.

End GeneralSettingsTab.

(** ** Properties of WebPreview *)

Section WebPreviewProperties.
Import WebPreview.

(** [Array.prototype.find] returns the first element that satisfies the
    callback. *)
Lemma find_first {A} (f : A → bool) (l : list A) (x : A) :
  find f l = Some x →
  ∃ i, l !! i = Some x ∧ f x = true ∧ ∀ j y, j < i → l !! j = Some y → f y = false.
Proof.
  induction l as [|a l IH]; simpl; [done|].
  destruct (f a) eqn:Hfa.
  - intros [= ->]. exists 0. split_and!; [done..|]. intros j y Hj; lia.
  - intros Hfind. destruct (IH Hfind) as (i & Hi & Hfx & Hbefore).
    exists (S i). split_and!; [done..|].
    intros [|j] y Hj; simpl.
    + by intros [= <-].
    + apply Hbefore. lia.
Qed.

Lemma find_absent {A} (f : A → bool) (l : list A) :
  (∀ x, x ∈ l → f x = false) → find f l = None.
Proof.
  induction l as [|a l IH]; simpl; [done|].
  intros Hall. rewrite (Hall a) by apply list_elem_of_here.
  apply IH. intros x Hx. apply Hall. by apply list_elem_of_further.
Qed.

Lemma find_present {A} (f : A → bool) (l : list A) (x : A) :
  x ∈ l → f x = true → is_Some (find f l).
Proof.
  induction 1 as [x l|x a l Hx IH]; simpl; intros Hfx.
  - by rewrite Hfx.
  - destruct (f a); [done|]. by apply IH.
Qed.

Lemma selectedPort_nil id : selectedPort [] id = None.
Proof. done. Qed.

Lemma selectedPort_cons first rest id :
  selectedPort (first :: rest) id =
    Some (default first (find (port_matches id) (first :: rest))).
Proof.
  unfold selectedPort. cbn [length Nat.ltb Nat.leb].
  by destruct (find _ _).
Qed.

(** C1.  With an empty port list the selected port is null.  With a
    non-empty list it is the first port whose number is the stored selected
    port id, when there is one; when no port of the list has that number,
    or nothing was ever selected, it is the first port of the list. *)
Theorem WebPreview_selectedPort_spec (ports : list PortInfo) (id : option Z) :
  (ports = [] → selectedPort ports id = None) ∧
  (∀ n, id = Some n → (∃ q, q ∈ ports ∧ port q = n) →
     ∃ i p, selectedPort ports id = Some p ∧
            ports !! i = Some p ∧ port p = n ∧
            ∀ j q, j < i → ports !! j = Some q → port q ≠ n) ∧
  (∀ first rest, ports = first :: rest →
     (∀ q, q ∈ ports → Some (port q) ≠ id) →
     selectedPort ports id = Some first) ∧
  (∀ first rest, ports = first :: rest →
     selectedPort ports None = Some first).
Proof.
  split_and!.
  - by intros ->.
  - intros n -> (q & Hq & Hport).
    destruct ports as [|first rest]; [by apply elem_of_nil in Hq|].
    rewrite selectedPort_cons.
    destruct (find_present (port_matches (Some n)) _ q Hq) as [p Hp].
    { simpl. by apply Z.eqb_eq. }
    rewrite Hp. simpl.
    destruct (find_first _ _ _ Hp) as (i & Hi & Hm & Hbefore).
    exists i, p. split_and!; [done..| |].
    + simpl in Hm. by apply Z.eqb_eq.
    + intros j y Hj Hy. specialize (Hbefore j y Hj Hy). simpl in Hbefore.
      by apply Z.eqb_neq.
  - intros first rest -> Hnone.
    rewrite selectedPort_cons, find_absent; [done|].
    intros x Hx. specialize (Hnone x Hx).
    destruct id as [n|]; simpl; [|done].
    apply Z.eqb_neq. congruence.
  - intros first rest ->. by rewrite selectedPort_cons, find_absent.
Qed.

(** The stale id 5173 is not in the fetched list: the first port is shown. *)
Lemma WebPreview_selectedPort_witness :
  selectedPort [port3000; port8080] (Some 5173%Z) = Some port3000.
Proof.
  refine (proj1 (proj2 (proj2
    (WebPreview_selectedPort_spec [port3000; port8080] (Some 5173%Z))))
    port3000 [port8080] eq_refl _).
  intros q Hq [= Hport].
  apply elem_of_cons in Hq as [->|Hq]; [done|].
  apply list_elem_of_singleton in Hq as ->. done.
Defined.

Example selectedPort_match :
  selectedPort [port3000; port8080] (Some 8080%Z) = Some port8080.
Proof. reflexivity. Qed.

(** With ports, what [Panel] displays is [selectedPort] of the fetched list
    and the stored id. *)
Lemma render_displays_selectedPort props q w panel :
  render props q w = PortsPanel panel →
  panel_ports panel = default [] (data q) ∧
  panel_selectedPort panel = selectedPort (default [] (data q)) (selectedPortId w) ∧
  panel_previewUrl panel = previewUrl <$> panel_selectedPort panel.
Proof.
  unfold render. destruct (no_sandbox _); [done|].
  destruct (length _ =? 0)%nat; [done|]. by intros [= <-].
Qed.

(** C9.  [setSelectedPort] called with a port whose number is 0 stores
    null, whatever was stored before, so with any port list the displayed
    selection is the first port of the list (null for an empty list). *)
Theorem WebPreview_port_zero_not_recorded
    (w : World) (p : PortInfo) (ports : list PortInfo) :
  port p = 0%Z →
  let w' := run SetSelectedPort (Some p) w in
  selectedPortId w' = None ∧
  selectedPort ports (selectedPortId w') = ports !! 0.
Proof.
  intros Hzero w'. subst w'. simpl. unfold setSelectedPort, JS.truthy_number.
  rewrite Hzero. simpl. split; [done|].
  destruct ports as [|first rest]; [done|].
  by rewrite selectedPort_cons, find_absent.
Qed.

(** Port 0 is in the list and is the one picked, after port 8080 was
    selected: nothing is stored and the first port is displayed. *)
Lemma WebPreview_port_zero_witness :
  let w := run SetSelectedPort (Some port8080) initial in
  let w' := run SetSelectedPort (Some port0) w in
  selectedPortId w = Some 8080%Z ∧
  selectedPortId w' = None ∧
  selectedPort [port3000; port8080; port0] (selectedPortId w') = Some port3000.
Proof.
  split; [reflexivity|].
  exact (WebPreview_port_zero_not_recorded
           (run SetSelectedPort (Some port8080) initial) port0
           [port3000; port8080; port0] eq_refl).
Defined.

(** C7 as stated fails: with a sandbox and one open port the view is not the
    empty state, and the refresh action is handed to [Panel] as
    [onRefreshPorts]. *)
Lemma WebPreview_refresh_outside_empty_state :
  let v := render connected (fetched [port3000]) initial in
  is_empty_state v = false ∧
  refresh_reachable v = true ∧
  wired v = [(PanelOnPortChange, SetSelectedPort); (PanelOnRefreshPorts, FetchPorts)].
Proof. by vm_compute. Qed.

(** C7, amended.  The component renders a Refresh button of its own exactly
    in the empty state (sandbox id present, no ports), bound to the refetch
    and disabled while loading.  With ports it renders no such button and
    hands the same action to [Panel] as [onRefreshPorts].  Without a
    sandbox id no refresh action is handed out at all. *)
Theorem WebPreview_refresh_wiring
    (props : WebPreviewProps) (q : QueryResult) (w : World) :
  let v := render props q w in
  let ports := default [] (data q) in
  (is_empty_state v = true ↔ no_sandbox (sandboxId props) = false ∧ ports = []) ∧
  (∀ cb, (OwnButton, cb) ∈ wired v ↔ is_empty_state v = true ∧ cb = FetchPorts) ∧
  (∀ b, v = EmptyPorts b → disabled b = isLoading q) ∧
  (∀ panel, v = PortsPanel panel →
     no_sandbox (sandboxId props) = false ∧ ports ≠ [] ∧
     onRefreshPorts panel = FetchPorts) ∧
  refresh_reachable v = negb (no_sandbox (sandboxId props)).
Proof.
  intros v ports. subst v ports. unfold render.
  destruct (no_sandbox (sandboxId props)); simpl.
  { split_and!; [|intros cb|..]; try done.
    - by split; [|intros [? _]].
    - split; [by intros ?%elem_of_nil | by intros [? _]]. }
  destruct (default [] (data q)) as [|first rest]; simpl.
  - split_and!; [|intros cb|intros b [= <-]|..]; try done.
    rewrite list_elem_of_singleton. split.
    + by intros [= ->].
    + by intros [_ ->].
  - split_and!; [|intros cb|..|intros panel [= <-]|]; try done.
    + by split; [|intros [_ ?]].
    + split; [|by intros [? _]].
      intros [?|[?|?%elem_of_nil]%elem_of_cons]%elem_of_cons; done.
Qed.

(** The empty state: the component's own button, bound to the refetch. *)
Lemma WebPreview_refresh_witness :
  (OwnButton, FetchPorts) ∈ wired (render connected (fetched []) initial).
Proof.
  apply (proj1 (proj2 (WebPreview_refresh_wiring connected (fetched []) initial))
           FetchPorts).
  split; reflexivity.
Defined.

End WebPreviewProperties.

(** ** Properties of Dropdown *)

Section DropdownProperties.
Import Dropdown.

Lemma isGroupedItems_cons (first : JS.value) (rest : list JS.value) :
  isGroupedItems (first :: rest) = true ↔
  ∃ fields, first = JS.VObject fields ∧ is_Some (fields !! "type").
Proof.
  unfold isGroupedItems. cbn [length Nat.ltb Nat.leb lookup list_lookup default].
  destruct first as [| |b|n|s|name|fields]; simpl;
    try (split; [done | by intros (? & [=] & _)]).
  rewrite bool_decide_eq_true. split.
  - intros Hty. by exists fields.
  - by intros (? & [= <-] & Hty).
Qed.

Lemma isGroupedItems_nil : isGroupedItems [] = false.
Proof. done. Qed.

Lemma render_items_flat props :
  isGroupedItems (items props) = false →
  render_items props = Some (render_flat_item props <$> items props).
Proof. intros Hflat. unfold render_items. by rewrite Hflat. Qed.

(** C2.  A collection is classified as grouped exactly when it is non-empty
    and its first element is a non-null object with a [type] property; the
    elements after the first play no part.  A collection that is not
    classified as grouped is rendered by the flat branch, one row per
    element. *)
Theorem Dropdown_isGroupedItems_spec (props : DropdownProps) :
  (isGroupedItems (items props) = true ↔
     ∃ fields rest,
       items props = JS.VObject fields :: rest ∧ is_Some (fields !! "type")) ∧
  (isGroupedItems (items props) = false →
     render_items props = Some (render_flat_item props <$> items props)) ∧
  (isGroupedItems (items props) = true →
     render_items props = mapM id (imap (render_grouped_item props) (items props))) ∧
  (∀ first rest rest',
     isGroupedItems (first :: rest) = isGroupedItems (first :: rest')).
Proof.
  split_and!.
  - destruct (items props) as [|first rest].
    + rewrite isGroupedItems_nil. split; [done | by intros (? & ? & [=] & _)].
    + rewrite isGroupedItems_cons. split.
      * intros (fields & -> & Hty). by exists fields, rest.
      * intros (fields & rest' & [= -> _] & Hty). by exists fields.
  - apply render_items_flat.
  - intros Hgrouped. unfold render_items. by rewrite Hgrouped.
  - done.
Qed.

(** A collection that starts with a string is rendered flat although its
    second element is an object with a [type] property. *)
Lemma Dropdown_isGroupedItems_witness :
  render_items (sample A [A; to_value (Header "Recent")]) =
    Some (render_flat_item (sample A [A; to_value (Header "Recent")])
            <$> [A; to_value (Header "Recent")]).
Proof.
  exact (proj1 (proj2 (Dropdown_isGroupedItems_spec
                         (sample A [A; to_value (Header "Recent")]))) eq_refl).
Defined.

(** *** Well-typed grouped collections *)

Lemma get_type_to_value (e : DropdownItemType) :
  JS.get (to_value e) "type" =
    Some (JS.VString match e with Item _ => "item" | Header _ => "header" end).
Proof. destruct e; simpl; by rewrite lookup_insert_eq. Qed.

Lemma render_grouped_item_typed props (index : nat) (e : DropdownItemType) :
  render_grouped_item props index (to_value e) = Some (render_entry props index e).
Proof.
  unfold render_grouped_item. rewrite get_type_to_value.
  destruct e as [data|label]; simpl.
  - rewrite lookup_insert_ne by done. by rewrite lookup_insert_eq.
  - rewrite lookup_insert_ne by done. by rewrite lookup_insert_eq.
Qed.

Lemma isGroupedItems_typed (e : DropdownItemType) (g : list DropdownItemType) :
  isGroupedItems (to_value <$> e :: g) = true.
Proof.
  rewrite fmap_cons. apply isGroupedItems_cons.
  destruct e as [data|label]; simpl; eexists; (split; [done|]);
    by rewrite lookup_insert_eq.
Qed.

Lemma mapM_imap_typed {A B C} (enc : A → B) (f : nat → B → option C)
    (h : nat → A → C) (l : list A) :
  (∀ i a, f i (enc a) = Some (h i a)) →
  mapM id (imap f (enc <$> l)) = Some (imap h l).
Proof.
  revert f h. induction l as [|a l IH]; intros f h Hfh; [done|].
  rewrite fmap_cons, !imap_cons. simpl. rewrite Hfh. simpl.
  rewrite (IH (f ∘ S) (h ∘ S)); [done|]. intros i b. apply Hfh.
Qed.

(** On a well-typed grouped collection no callback throws, and the list is
    rendered entry by entry. *)
Lemma render_items_typed props (g : list DropdownItemType) :
  items props = to_value <$> g →
  render_items props = Some (imap (render_entry props) g).
Proof.
  intros Hitems. unfold render_items. rewrite Hitems.
  destruct g as [|e g]; [done|].
  rewrite isGroupedItems_typed.
  apply mapM_imap_typed, render_grouped_item_typed.
Qed.

(** *** Collections classified as grouped, on arbitrary values *)

(** What the grouped callback returns when it does not throw: a header, or
    the row of [item.data]. *)
Lemma render_grouped_item_Some props (index : nat) (item : JS.value) (el : Element) :
  render_grouped_item props index item = Some el →
  (is_header el = true ∧ handler_of el = None ∧ is_selected el = false) ∨
  ∃ d, JS.get item "data" = Some d ∧
       el = select_item props "flex items-center gap-2.5 pl-3" d.
Proof.
  unfold render_grouped_item.
  destruct (JS.get item "type") as [ty|]; simpl; [|done].
  destruct (JS.strict_eq_string ty "header").
  - destruct (JS.get item "label") as [label|]; simpl; [|done].
    destruct (JS.to_string_throws label); [done|]. intros [= <-]. by left.
  - destruct (JS.get item "data") as [d|]; simpl; [|done]. intros [= <-].
    right. by exists d.
Qed.

(** The child at a position of a list rendered by the grouped branch is what
    the callback returns on the element at that position. *)
Lemma render_items_grouped_lookup props (els : list Element) (i : nat) (el : Element) :
  isGroupedItems (items props) = true → render_items props = Some els →
  els !! i = Some el →
  ∃ item, items props !! i = Some item ∧ render_grouped_item props i item = Some el.
Proof.
  intros Hgrouped. unfold render_items. rewrite Hgrouped.
  intros Hels%mapM_Some_1 Hi.
  destruct (Forall2_lookup_r _ _ _ _ _ Hels Hi) as (r & Hr & Hid).
  simpl in Hid. subst r. rewrite list_lookup_imap in Hr.
  destruct (items props !! i) as [item|]; [|done].
  simpl in Hr. injection Hr as Hr. by exists item.
Qed.

Lemma run_Select props (data : JS.value) (w : World) :
  run props (Select data) w =
    {| isOpen := false; onSelectCalls := onSelectCalls w ++ [data] |}.
Proof. done. Qed.




(** *** Which rows are marked selected *)

Lemma is_selected_select_item props (fallback : string) (data : JS.value) :
  is_selected (select_item props fallback data) =
    bool_decide (getItemKey props data = getItemKey props (value props)).
Proof. done. Qed.

Lemma selected_count_cons (e : Element) (els : list Element) :
  selected_count (e :: els) =
    (if is_selected e then 1 else 0) + selected_count els.
Proof.
  unfold selected_count. rewrite filter_cons.
  destruct (is_selected e); by case_decide.
Qed.

Lemma selected_count_flat props (l : list JS.value) :
  selected_count (render_flat_item props <$> l) =
    length (filter (λ d, getItemKey props d = getItemKey props (value props)) l).
Proof.
  induction l as [|a l IH]; [done|].
  rewrite fmap_cons, selected_count_cons, IH, filter_cons.
  unfold render_flat_item. rewrite is_selected_select_item.
  case_bool_decide; by case_decide.
Qed.

Lemma selected_count_entries props (f : nat → nat) (g : list DropdownItemType) :
  selected_count (imap (λ i, render_entry props (f i)) g) =
    length (filter (λ d, getItemKey props d = getItemKey props (value props))
                   (item_data g)).
Proof.
  revert f. induction g as [|e g IH]; intros f; [done|].
  rewrite imap_cons, selected_count_cons.
  change (imap ((λ i, render_entry props (f i)) ∘ S) g)
    with (imap (λ i, render_entry props (f (S i))) g).
  rewrite (IH (λ i, f (S i))).
  destruct e as [data|label]; simpl.
  - unfold item_data. simpl. rewrite filter_cons.
    case_bool_decide; by case_decide.
  - done.
Qed.

Lemma filter_key_absent {A} (key : A → string) (k : string) (l : list A) :
  k ∉ key <$> l → filter (λ d, key d = k) l = [].
Proof.
  induction l as [|a l IH]; [done|].
  rewrite fmap_cons, not_elem_of_cons. intros [Hne Hnotin].
  rewrite filter_cons_False by done. by apply IH.
Qed.

(** Among items with pairwise distinct keys, exactly one has a given key
    that occurs. *)
Lemma filter_key_unique {A} (key : A → string) (k : string) (l : list A) :
  NoDup (key <$> l) → k ∈ key <$> l → length (filter (λ d, key d = k) l) = 1.
Proof.
  induction l as [|a l IH]; [by intros _ ?%elem_of_nil|].
  rewrite fmap_cons, NoDup_cons, elem_of_cons. intros [Hfresh Hnodup] Hin.
  destruct (decide (key a = k)) as [Heq|Hne].
  - rewrite filter_cons_True by done. simpl.
    rewrite filter_key_absent; [done|]. by rewrite <- Heq.
  - rewrite filter_cons_False by done. apply IH; [done|].
    by destruct Hin as [?|?].
Qed.

(** C5 as stated fails: no row is marked selected when the value's key is not
    the key of any item, and two are when two items share that key. *)
Lemma Dropdown_selected_not_exactly_one :
  selected_count <$> render_items (sample B [A]) = Some 0 ∧
  selected_count <$> render_items (sample A [A; A]) = Some 2 ∧
  selected_count <$> render_items (sample A []) = Some 0.
Proof. by vm_compute. Qed.

(** C5, amended.  In a collection classified as flat and in a well-typed
    grouped collection, a row is marked selected exactly when the key
    derived from its item equals the key derived from the current value
    (headers never are); so the number of selected rows is the number of
    items with that key.  It is one when the keys of the items are pairwise
    distinct and the value's key is among them.  In any collection
    classified as grouped, the row rendered for an element is marked
    selected exactly when the key derived from the [data] field of that
    element equals the key derived from the current value. *)
Theorem Dropdown_selected_by_key (props : DropdownProps) :
  let key := getItemKey props in
  let same_key := λ d : JS.value, key d = key (value props) in
  (isGroupedItems (items props) = false →
   ∃ els, render_items props = Some els ∧
     (∀ (i : nat) (item : JS.value), items props !! i = Some item →
        is_selected <$> els !! i = Some (bool_decide (same_key item))) ∧
     selected_count els = length (filter same_key (items props)) ∧
     (NoDup (key <$> items props) → key (value props) ∈ key <$> items props →
        selected_count els = 1)) ∧
  (∀ g, items props = to_value <$> g →
   ∃ els, render_items props = Some els ∧
     (∀ (i : nat) (data : JS.value), g !! i = Some (Item data) →
        is_selected <$> els !! i = Some (bool_decide (same_key data))) ∧
     (∀ (i : nat) (label : string), g !! i = Some (Header label) →
        is_selected <$> els !! i = Some false) ∧
     selected_count els = length (filter same_key (item_data g)) ∧
     (NoDup (key <$> item_data g) → key (value props) ∈ key <$> item_data g →
        selected_count els = 1)) ∧
  (isGroupedItems (items props) = true →
   ∀ els (i : nat) (item : JS.value) el,
     render_items props = Some els → items props !! i = Some item →
     els !! i = Some el →
     (is_header el = true ∧ is_selected el = false) ∨
     ∃ d, JS.get item "data" = Some d ∧
          is_selected el = bool_decide (same_key d)).
Proof.
  intros key same_key. split_and!.
  - intros Hflat.
    exists (render_flat_item props <$> items props).
    split_and!; [by apply render_items_flat| | |].
    + intros i item Hi. by rewrite list_lookup_fmap, Hi.
    + apply selected_count_flat.
    + intros Hnodup Hin. rewrite selected_count_flat.
      by apply filter_key_unique.
  - intros g Hitems.
    exists (imap (render_entry props) g).
    split_and!; [by apply render_items_typed| | | |].
    + intros i data Hi. by rewrite list_lookup_imap, Hi.
    + intros i label Hi. by rewrite list_lookup_imap, Hi.
    + apply (selected_count_entries props id).
    + intros Hnodup Hin. rewrite (selected_count_entries props id).
      by apply filter_key_unique.
  - intros Hgrouped els i item el Hels Hitem Hel.
    destruct (render_items_grouped_lookup props els i el Hgrouped Hels Hel)
      as (item' & Hitem' & Hrow).
    assert (item' = item) as -> by congruence.
    destruct (render_grouped_item_Some _ _ _ _ Hrow)
      as [(Hheader & _ & Hsel)|(d & Hd & ->)]; [by left|].
    right. by exists d.
Qed.

(** In [accounts] the keys of the two records are distinct and the first is
    the key of the value, but both rows are keyed by [undefined]: none is
    selected. *)
Example accounts_none_selected :
  selected_count <$> render_items accounts = Some 0.
Proof. reflexivity. Qed.

(** In the scenario exactly the row of [A] is selected. *)
Lemma Dropdown_selected_witness :
  ∃ els, render_items scenario = Some els ∧
    is_selected <$> els !! 1 = Some true ∧
    is_selected <$> els !! 2 = Some false ∧
    is_selected <$> els !! 0 = Some false ∧
    selected_count els = 1.
Proof.
  destruct (proj1 (proj2 (Dropdown_selected_by_key scenario)) recent eq_refl)
    as (els & Hels & Hitem & Hheader & Hcount & Hone).
  exists els. split_and!; [done| | | |].
  - exact (Hitem 1 A eq_refl).
  - exact (Hitem 2 B eq_refl).
  - exact (Hheader 0 "Recent" eq_refl).
  - apply Hone; compute_done.
Defined.

(** *** Header separators *)

(** C6 as stated fails: in a grouped collection that starts with an item,
    the header of the first (here the only) group is not at index 0 and is
    rendered with its top border. *)
Lemma Dropdown_first_group_with_top_border :
  let props := sample A (to_value <$> late_header) in
  isGroupedItems (items props) = true ∧
  first_header <$> render_items props
    = Some (Some (HeaderDiv (JS.VString "Recent") mt_1)) ∧
  shows_top_border (HeaderDiv (JS.VString "Recent") mt_1) = true.
Proof. by vm_compute. Qed.

(** C6, amended.  In grouped mode a header is rendered without top border
    exactly when it is the element at index 0 of the collection; a header
    at any later index is rendered with it, and rows of items carry no
    separator.  So when the collection starts with a header, the first
    group's header has no top border and the header of every later group
    has one. *)
Theorem Dropdown_header_top_border (props : DropdownProps) (g : list DropdownItemType) :
  items props = to_value <$> g →
  ∃ els, render_items props = Some els ∧ length els = length g ∧
    (∀ (i : nat) (label : string), g !! i = Some (Header label) →
       ∃ el, els !! i = Some el ∧ is_header el = true ∧
             shows_top_border el = negb (i =? 0)%nat) ∧
    (∀ (i : nat) (data : JS.value), g !! i = Some (Item data) →
       ∃ el, els !! i = Some el ∧ is_header el = false ∧
             shows_top_border el = false) ∧
    (∀ (label : string) rest, g = Header label :: rest →
       first_header els = Some (HeaderDiv (JS.VString label) border_t_0)) ∧
    (∀ (i : nat) el, 0 < i → els !! i = Some el → is_header el = true →
       shows_top_border el = true).
Proof.
  intros Hitems. exists (imap (render_entry props) g).
  split_and!; [by apply render_items_typed|apply length_imap| | | |].
  - intros i label Hi. exists (render_entry props i (Header label)).
    split_and!; [by rewrite list_lookup_imap, Hi|done|].
    simpl. by destruct (i =? 0)%nat.
  - intros i data Hi. exists (render_entry props i (Item data)).
    split_and!; [by rewrite list_lookup_imap, Hi|done..].
  - by intros label rest ->.
  - intros i el Hpos. rewrite list_lookup_imap.
    destruct (g !! i) as [[data|label]|]; simpl; intros [= <-]; [done|].
    intros _. simpl. destruct i; [lia|done].
Qed.

(** The scenario: "Recent" is rendered without top border. *)
Lemma Dropdown_header_witness :
  ∃ els, render_items scenario = Some els ∧
    first_header els = Some (HeaderDiv (JS.VString "Recent") border_t_0) ∧
    shows_top_border <$> els !! 0 = Some false.
Proof.
  destruct (Dropdown_header_top_border scenario recent eq_refl)
    as (els & Hels & _ & Hheader & _ & Hfirst & _).
  exists els. split_and!; [done| |].
  - exact (Hfirst "Recent" [Item A; Item B] eq_refl).
  - destruct (Hheader 0 "Recent" eq_refl) as (el & -> & _ & Hborder).
    simpl. by rewrite Hborder.
Defined.

End DropdownProperties.

(** ** Properties of ToolPermissionModal *)

Section ToolPermissionModalProperties.
Import ToolPermissionModal.

Example trim_stop : JS.trim " stop " = "stop".
Proof. reflexivity. Qed.

Example trim_inner : JS.trim "  rm  -rf " = "rm  -rf".
Proof. reflexivity. Qed.

Example trim_blank : JS.trim "   " = "".
Proof. reflexivity. Qed.

(** TAB and NBSP in front, LF behind. *)
Example trim_control :
  JS.trim (String (Ascii.ascii_of_nat 9) (String (Ascii.ascii_of_nat 160)
             ("ok" +:+ String (Ascii.ascii_of_nat 10) "")))
  = "ok".
Proof. reflexivity. Qed.

Lemma handleReject_hidden_field (w : World) :
  showRejectInput w = false →
  handleReject w =
    {| showRejectInput := true;
       alternativeInstruction := alternativeInstruction w;
       calls := calls w |}.
Proof. intros Hshow. unfold handleReject. by rewrite Hshow. Qed.

Lemma handleReject_blank (w : World) :
  showRejectInput w = true → JS.trim (alternativeInstruction w) = "" →
  handleReject w = w.
Proof.
  intros Hshow Hblank. unfold handleReject, JS.truthy_string.
  rewrite Hshow, Hblank. simpl. destruct w; simpl in *. by subst.
Qed.

Lemma handleReject_with_text (w : World) :
  showRejectInput w = true → JS.trim (alternativeInstruction w) ≠ "" →
  handleReject w =
    {| showRejectInput := false;
       alternativeInstruction := "";
       calls := calls w ++ [onReject (Some (JS.trim (alternativeInstruction w)))] |}.
Proof.
  intros Hshow Htext. unfold handleReject, JS.truthy_string.
  rewrite Hshow. by rewrite bool_decide_eq_false_2.
Qed.

(** The state reached by pressing Reject and typing " stop ", and a field
    holding only blanks. *)
Example typed_session :
  session [(asking bash, Press "Reject"); (asking bash, Input " stop ")] initial
  = {| showRejectInput := true; alternativeInstruction := " stop "; calls := [] |}.
Proof. reflexivity. Qed.

(** C3 as stated fails: with the field shown and holding " stop ",
    [handleReject] calls [onReject] with "stop", not with the text of the
    field; and on a field holding only blanks (a non-empty text) it calls
    nothing and clears nothing. *)
Lemma ToolPermissionModal_reject_passes_trimmed_text :
  let typed := {| showRejectInput := true; alternativeInstruction := " stop ";
                  calls := [] |} in
  let blank := {| showRejectInput := true; alternativeInstruction := "  ";
                  calls := [] |} in
  calls (run HandleReject typed) = [onReject (Some "stop")] ∧
  bool_decide ("stop" = alternativeInstruction typed) = false ∧
  JS.truthy_string (alternativeInstruction blank) = true ∧
  run HandleReject blank = blank.
Proof. by vm_compute. Qed.

(** On a dialog that is not loading, [handleReject] is what a press of
    "Reject" runs in the normal state, and what a press of "Send
    Instructions" runs in the revealed state once the text is not blank. *)
Lemma press_Reject (r : PermissionRequest) (w : World) :
  showRejectInput w = false →
  dispatch (asking r) (Press "Reject") w = run HandleReject w.
Proof. intros Hshow. unfold dispatch, render. simpl. by rewrite Hshow. Qed.

Lemma press_Send_Instructions (r : PermissionRequest) (w : World) :
  showRejectInput w = true → JS.trim (alternativeInstruction w) ≠ "" →
  dispatch (asking r) (Press "Send Instructions") w = run HandleReject w.
Proof.
  intros Hshow Htext. unfold dispatch, render. simpl. rewrite Hshow. simpl.
  unfold click, JS.truthy_string. simpl.
  by rewrite (bool_decide_eq_false_2 _ Htext).
Qed.

(** C3, amended.  [handleReject], run while the reject field is not shown,
    calls nothing and only sets the reveal flag.  Run while the field is
    shown and its text is not empty once trimmed, it calls [onReject]
    exactly once, with the trimmed text, and resets both the text and the
    reveal flag. *)
Theorem ToolPermissionModal_reject_two_step (w : World) :
  (showRejectInput w = false →
     run HandleReject w =
       {| showRejectInput := true;
          alternativeInstruction := alternativeInstruction w;
          calls := calls w |}) ∧
  (showRejectInput w = true → JS.trim (alternativeInstruction w) ≠ "" →
     run HandleReject w =
       {| showRejectInput := false;
          alternativeInstruction := "";
          calls :=
            calls w ++ [onReject (Some (JS.trim (alternativeInstruction w)))] |}).
Proof.
  split; simpl.
  - apply handleReject_hidden_field.
  - apply handleReject_with_text.
Qed.

Lemma ToolPermissionModal_reject_witness :
  run HandleReject
      {| showRejectInput := true; alternativeInstruction := " stop "; calls := [] |}
  = {| showRejectInput := false; alternativeInstruction := "";
       calls := [onReject (Some "stop")] |}.
Proof.
  refine (proj2 (ToolPermissionModal_reject_two_step
            {| showRejectInput := true; alternativeInstruction := " stop ";
               calls := [] |}) eq_refl _).
  vm_compute. discriminate.
Defined.

Example reject_session :
  session [(asking bash, Press "Reject");
           (asking bash, Input " stop ");
           (asking bash, Press "Send Instructions")] initial
  = {| showRejectInput := false; alternativeInstruction := "";
       calls := [onReject (Some "stop")] |}.
Proof. reflexivity. Qed.

(** With text entered a press on "Just Reject" resolves without text. *)
Example just_reject_session :
  session [(asking bash, Press "Reject");
           (asking bash, Input "use rg");
           (asking bash, Press "Just Reject")] initial
  = {| showRejectInput := false; alternativeInstruction := "";
       calls := [onReject None] |}.
Proof. reflexivity. Qed.

(** *** While loading *)

Lemma dispatch_loading (props : ToolPermissionModalProps) (ev : Event) (w : World) :
  isLoading props = true → dispatch props ev w = w.
Proof.
  intros Hbusy. unfold dispatch, render.
  destruct (request props) as [r|]; [|done].
  destruct ev as [l|s]; cbn [buttons rejectInput].
  - destruct (showRejectInput w); cbn [find label];
      repeat case_bool_decide; unfold click; cbn [disabled];
      by rewrite ?Hbusy.
  - destruct (showRejectInput w); cbn [text_disabled]; by rewrite ?Hbusy.
Qed.

Lemma session_cons step steps (w : World) :
  session (step :: steps) w = session steps (dispatch step.1 step.2 w).
Proof. done. Qed.

Lemma session_loading steps (w : World) :
  Forall (λ step, isLoading step.1 = true) steps → session steps w = w.
Proof.
  induction 1 as [|step steps Hbusy _ IH]; [done|].
  by rewrite session_cons, dispatch_loading.
Qed.

(** C8.  Every rendered button bound to [onApprove] is the Approve button
    and its [disabled] is [isLoading]; the normal state renders it.  Over
    any run whose renders all have [isLoading] true, no callback is called
    ([onApprove] in particular) and the local state does not move. *)
Theorem ToolPermissionModal_approve_disabled_while_loading :
  (∀ props w view b,
     render props w = Some view → b ∈ buttons view → onClick b = OnApprove →
     label b = "Approve" ∧ disabled b = isLoading props) ∧
  (∀ props w view,
     render props w = Some view → showRejectInput w = false →
     ∃ b, b ∈ buttons view ∧ onClick b = OnApprove) ∧
  (∀ steps w,
     Forall (λ step, isLoading step.1 = true) steps →
     calls (session steps w) = calls w ∧ session steps w = w).
Proof.
  split_and!.
  - intros props w view b. unfold render.
    destruct (request props) as [r|]; [|done]. intros [= <-]. simpl.
    destruct (showRejectInput w).
    + intros [->|[->|?%elem_of_nil]%elem_of_cons]%elem_of_cons; done.
    + intros [->|[->|?%elem_of_nil]%elem_of_cons]%elem_of_cons; done.
  - intros props w view. unfold render.
    destruct (request props) as [r|]; [|done]. intros [= <-] ->. simpl.
    eexists. split; [apply list_elem_of_further, list_elem_of_here|done].
  - intros steps w Hbusy. by rewrite session_loading.
Qed.

(** Approve and Reject pressed while loading: nothing is called. *)
Lemma ToolPermissionModal_approve_loading_witness :
  calls (session [(loading bash, Press "Approve");
                  (loading bash, Press "Reject")] initial) = [].
Proof.
  refine (proj1 (proj2 (proj2 ToolPermissionModal_approve_disabled_while_loading)
            [(loading bash, Press "Approve"); (loading bash, Press "Reject")]
            initial _)).
  repeat constructor.
Defined.

Example approve_session :
  calls (session [(asking bash, Press "Approve")] initial) = [onApprove].
Proof. reflexivity. Qed.

(** *** While the request is absent *)

Lemma dispatch_hidden (props : ToolPermissionModalProps) (ev : Event) (w : World) :
  request props = None → dispatch props ev w = w.
Proof. intros Hnone. unfold dispatch, render. by rewrite Hnone. Qed.

Lemma session_hidden steps (w : World) :
  Forall (λ step, request step.1 = None) steps → session steps w = w.
Proof.
  induction 1 as [|step steps Hnone _ IH]; [done|].
  by rewrite session_cons, dispatch_hidden.
Qed.

(** C10.  While the request is absent the component renders nothing and its
    local state stays as it was: whatever happens meanwhile, the reveal
    flag and the entered text are unchanged, and the dialog of the next
    request opens with the reject field shown and filled with that
    text. *)
Theorem ToolPermissionModal_state_survives_absent_request
    (steps : list (ToolPermissionModalProps * Event)) (w : World)
    (next : PermissionRequest) (busy : bool) :
  Forall (λ step, request step.1 = None) steps →
  let w' := session steps w in
  Forall (λ step, render step.1 w = None) steps ∧
  showRejectInput w' = showRejectInput w ∧
  alternativeInstruction w' = alternativeInstruction w ∧
  (showRejectInput w = true →
     ∃ view,
       render {| request := Some next; isLoading := busy |} w' = Some view ∧
       rejectInput view =
         Some {| text := alternativeInstruction w; text_disabled := busy |} ∧
       label <$> buttons view = ["Just Reject"; "Send Instructions"]).
Proof.
  intros Hhidden w'. subst w'. rewrite session_hidden by done.
  split_and!; [|done..|].
  - eapply Forall_impl; [exact Hhidden|].
    intros step Hnone. unfold render. by rewrite Hnone.
  - intros Hshow. unfold render. simpl. rewrite Hshow. by eexists.
Qed.

(** The field was revealed and "use rg" typed for a first request; the
    request goes away unresolved; the dialog of the next request shows the
    field with "use rg". *)
Lemma ToolPermissionModal_stale_state_witness :
  let w := {| showRejectInput := true; alternativeInstruction := "use rg";
              calls := [] |} in
  let w' := session [(hidden, Press "Approve"); (hidden, Input "")] w in
  showRejectInput w' = true ∧
  alternativeInstruction w' = "use rg" ∧
  ∃ view,
    render (asking edit) w' = Some view ∧
    rejectInput view = Some {| text := "use rg"; text_disabled := false |} ∧
    label <$> buttons view = ["Just Reject"; "Send Instructions"].
Proof.
  pose proof (ToolPermissionModal_state_survives_absent_request
    [(hidden, Press "Approve"); (hidden, Input "")]
    {| showRejectInput := true; alternativeInstruction := "use rg"; calls := [] |}
    edit false) as Hstale.
  destruct Hstale as (_ & Hshow & Htext & Hview); [by repeat constructor|].
  split_and!; [exact Hshow|exact Htext|exact (Hview eq_refl)].
Defined.

End ToolPermissionModalProperties.

(** ** Further properties of WebPreview *)

Section WebPreviewFurther.
Import WebPreview.

Lemma find_elem_of {A} (f : A → bool) (l : list A) (x : A) :
  find f l = Some x → x ∈ l ∧ f x = true.
Proof.
  intros Hfind. destruct (find_first f l x Hfind) as (i & Hi & Hfx & _).
  split; [|done]. by eapply list_elem_of_lookup_2.
Qed.

Lemma selectedPort_None (ports : list PortInfo) (id : option Z) :
  selectedPort ports id = None ↔ ports = [].
Proof.
  destruct ports as [|first rest]; [done|]. by rewrite selectedPort_cons.
Qed.

Lemma selectedPort_Some (ports : list PortInfo) (id : option Z) (p : PortInfo) :
  selectedPort ports id = Some p →
  p ∈ ports ∧ (id = Some (port p) ∨ ports !! 0 = Some p).
Proof.
  destruct ports as [|first rest]; [done|].
  rewrite selectedPort_cons.
  destruct (find (port_matches id) (first :: rest)) as [q|] eqn:Hfind;
    cbn [default]; intros [= <-].
  - apply find_elem_of in Hfind as [Hq Hmatch]. split; [done|]. left.
    destruct id as [n|]; simpl in Hmatch; [|done].
    apply Z.eqb_eq in Hmatch. by rewrite Hmatch.
  - split; [apply list_elem_of_here | by right].
Qed.

(** X1.  The selected port is null exactly for an empty list; otherwise it
    is a port of the list, and it either carries the stored id or is the
    first port. *)
Theorem WebPreview_selectedPort_in_list (ports : list PortInfo) (id : option Z) :
  (selectedPort ports id = None ↔ ports = []) ∧
  (∀ p, selectedPort ports id = Some p →
     p ∈ ports ∧ (id = Some (port p) ∨ ports !! 0 = Some p)).
Proof. split; [apply selectedPort_None | apply selectedPort_Some]. Qed.

Lemma WebPreview_selectedPort_in_list_witness :
  port8080 ∈ [port3000; port8080] ∧
  (Some 8080%Z = Some (port port8080) ∨ [port3000; port8080] !! 0 = Some port8080).
Proof.
  exact (proj2 (WebPreview_selectedPort_in_list [port3000; port8080] (Some 8080%Z))
           port8080 eq_refl).
Defined.

(** X2.  In the view with ports, [Panel] is given the fetched list, a
    selected port that is never null and belongs to that list, and the
    preview URL of that port. *)
Theorem WebPreview_panel_port_defined
    (props : WebPreviewProps) (q : QueryResult) (w : World) (panel : PanelProps) :
  render props q w = PortsPanel panel →
  data q = Some (panel_ports panel) ∧
  ∃ p, panel_selectedPort panel = Some p ∧ p ∈ panel_ports panel ∧
       panel_previewUrl panel = Some (previewUrl p).
Proof.
  intros Hview.
  destruct (render_displays_selectedPort _ _ _ _ Hview) as (Hports & Hsel & Hurl).
  assert (data q = Some (panel_ports panel)) as Hdata.
  { revert Hview. unfold render. destruct (no_sandbox _); [done|].
    destruct (data q) as [ports|]; simpl; [|done].
    destruct (length ports =? 0)%nat; [done|]. by intros [= <-]. }
  split; [done|].
  destruct (panel_selectedPort panel) as [p|] eqn:Hp.
  - exists p. split; [done|]. rewrite Hurl. split; [|done].
    rewrite Hports. symmetry in Hsel. by apply selectedPort_Some in Hsel as [? _].
  - symmetry in Hsel. apply selectedPort_None in Hsel.
    revert Hview. unfold render. destruct (no_sandbox _); [done|].
    by rewrite Hsel.
Qed.

Lemma WebPreview_panel_port_witness :
  ∃ p, panel_selectedPort
         {| panel_previewUrl := Some "https://8080.preview";
            panel_ports := [port3000; port8080];
            panel_selectedPort := Some port8080;
            onPortChange := SetSelectedPort;
            onRefreshPorts := FetchPorts |} = Some p ∧
       p ∈ [port3000; port8080] ∧
       Some "https://8080.preview" = Some (previewUrl p).
Proof.
  exact (proj2 (WebPreview_panel_port_defined connected
                  (fetched [port3000; port8080])
                  {| selectedPortId := Some 8080%Z; refetchCalls := 0 |}
                  _ eq_refl)).
Defined.

(** Selecting a port of the list whose number is not 0 displays a port with
    that number. *)
Lemma select_then_selectedPort (ports : list PortInfo) (p : PortInfo) (w : World) :
  p ∈ ports → port p ≠ 0%Z →
  ∃ q, selectedPort ports (selectedPortId (setSelectedPort (Some p) w)) = Some q ∧
       q ∈ ports ∧ port q = port p.
Proof.
  intros Hp Hport. unfold setSelectedPort, JS.truthy_number. simpl.
  apply Z.eqb_neq in Hport. rewrite Hport. simpl.
  destruct ports as [|first rest]; [by apply elem_of_nil in Hp|].
  rewrite selectedPort_cons.
  destruct (find_present (port_matches (Some (port p))) _ p Hp) as [q Hq].
  { simpl. apply Z.eqb_refl. }
  rewrite Hq. apply find_elem_of in Hq as [Hin Hmatch].
  exists q. split_and!; [done..|]. simpl in Hmatch. by apply Z.eqb_eq.
Qed.

Lemma NoDup_fmap_elem_of_inj {A B} (f : A → B) (l : list A) (x y : A) :
  NoDup (f <$> l) → x ∈ l → y ∈ l → f x = f y → x = y.
Proof.
  induction l as [|a l IH]; [by intros _ ?%elem_of_nil|].
  rewrite fmap_cons, NoDup_cons, !elem_of_cons.
  intros [Hfresh Hnodup] [->|Hx] [->|Hy] Hf; [done| | |by apply IH].
  - destruct Hfresh. rewrite Hf. by apply list_elem_of_fmap_2.
  - destruct Hfresh. rewrite <- Hf. by apply list_elem_of_fmap_2.
Qed.

(** X3.  Picking a port of the fetched list whose number is not 0 makes the
    view display a port of the list with that number; it is the picked port
    itself when the port numbers of the list are pairwise distinct. *)
Theorem WebPreview_pick_then_display
    (ports : list PortInfo) (p : PortInfo) (w : World) :
  p ∈ ports → port p ≠ 0%Z →
  let w' := run SetSelectedPort (Some p) w in
  selectedPortId w' = Some (port p) ∧
  ∃ q, selectedPort ports (selectedPortId w') = Some q ∧
       q ∈ ports ∧ port q = port p ∧
       (NoDup (port <$> ports) → q = p).
Proof.
  intros Hp Hport w'. subst w'. simpl. split.
  - unfold setSelectedPort, JS.truthy_number. simpl.
    apply Z.eqb_neq in Hport. by rewrite Hport.
  - destruct (select_then_selectedPort ports p w Hp Hport) as (q & Hsel & Hq & Heq).
    exists q. split_and!; [done..|].
    intros Hnodup. by eapply NoDup_fmap_elem_of_inj.
Qed.

(** Two ports share the number 3000: picking the second one displays the
    first. *)
Example pick_among_duplicates :
  let twin := {| port := 3000; previewUrl := "https://twin.preview" |} in
  selectedPort [port3000; twin]
    (selectedPortId (run SetSelectedPort (Some twin) initial)) = Some port3000.
Proof. reflexivity. Qed.

Lemma WebPreview_pick_then_display_witness :
  let w' := run SetSelectedPort (Some port8080) initial in
  selectedPortId w' = Some 8080%Z ∧
  ∃ q, selectedPort [port3000; port8080] (selectedPortId w') = Some q ∧
       q ∈ [port3000; port8080] ∧ port q = 8080%Z ∧
       (NoDup (port <$> [port3000; port8080]) → q = port8080).
Proof.
  apply (WebPreview_pick_then_display [port3000; port8080] port8080 initial).
  - apply list_elem_of_further, list_elem_of_here.
  - done.
Defined.

Lemma runs_snoc cs c (w : World) :
  runs (cs ++ [c]) w = run c.1 c.2 (runs cs w).
Proof. unfold runs. by rewrite foldl_app. Qed.

(** X4.  Whatever callbacks ran since the component was mounted, the stored
    id is never 0: it is null or the non-zero number of a port that was
    passed to [setSelectedPort]. *)
Theorem WebPreview_stored_id_never_zero
    (cs : list (Callback * option PortInfo)) (n : Z) :
  selectedPortId (runs cs initial) = Some n →
  n ≠ 0%Z ∧ ∃ p, (SetSelectedPort, Some p) ∈ cs ∧ port p = n.
Proof.
  induction cs as [|[cb arg] cs IH] using rev_ind; [done|].
  rewrite runs_snoc. simpl. destruct cb; simpl.
  - intros Hid. destruct (IH Hid) as (Hn & p & Hp & Hport).
    split; [done|]. exists p. split; [|done]. apply elem_of_app. by left.
  - unfold setSelectedPort, JS.truthy_number. simpl.
    destruct arg as [p|]; [|done].
    destruct (port p =? 0)%Z eqn:Hzero; simpl; [done|]. intros [= <-].
    split; [by apply Z.eqb_neq|].
    exists p. split; [|done]. apply elem_of_app. right. apply list_elem_of_here.
Qed.

Lemma WebPreview_stored_id_witness :
  8080%Z ≠ 0%Z ∧
  ∃ p, (SetSelectedPort, Some p) ∈
         [(SetSelectedPort, Some port8080); (FetchPorts, None);
          (SetSelectedPort, Some port0); (SetSelectedPort, Some port8080)] ∧
       port p = 8080%Z.
Proof.
  exact (WebPreview_stored_id_never_zero
           [(SetSelectedPort, Some port8080); (FetchPorts, None);
            (SetSelectedPort, Some port0); (SetSelectedPort, Some port8080)]
           8080%Z eq_refl).
Defined.

(** X5.  The port query is enabled exactly when the sandbox id is a
    non-empty string and the view is active; it is then keyed by that id,
    never by the empty string, and whenever "No sandbox connected" is shown
    the query is disabled. *)
Theorem WebPreview_query_gating (props : WebPreviewProps) :
  (queryEnabled props = true ↔
     ∃ s, sandboxId props = Some s ∧ s ≠ "" ∧ isActive props = true) ∧
  (queryEnabled props = true → sandboxId props = Some (queryKey props) ∧
                               queryKey props ≠ "") ∧
  (∀ q w, render props q w = NoSandbox ↔ no_sandbox (sandboxId props) = true) ∧
  (∀ q w, render props q w = NoSandbox → queryEnabled props = false).
Proof.
  assert (queryEnabled props = true →
          ∃ s, sandboxId props = Some s ∧ s ≠ "" ∧ isActive props = true) as Hen.
  { unfold queryEnabled, no_sandbox, JS.truthy_string.
    destruct (sandboxId props) as [s|]; simpl; [|done].
    case_bool_decide; simpl; [done|]. intros ->. by exists s. }
  assert (∀ q w, render props q w = NoSandbox ↔ no_sandbox (sandboxId props) = true)
    as Hview.
  { intros q w. unfold render. destruct (no_sandbox _); [done|].
    by destruct (length _ =? 0)%nat. }
  split_and!; [|..|done|].
  - split; [done|]. intros (s & Hs & Hne & Hact).
    unfold queryEnabled, no_sandbox, JS.truthy_string. rewrite Hs, Hact.
    by rewrite bool_decide_eq_false_2.
  - intros (s & Hs & Hne & _)%Hen. unfold queryKey. by rewrite Hs.
  - intros q w Hno%Hview. unfold queryEnabled. by rewrite Hno.
Qed.

Lemma WebPreview_query_gating_witness :
  sandboxId connected = Some (queryKey connected) ∧ queryKey connected ≠ "".
Proof. exact (proj1 (proj2 (WebPreview_query_gating connected)) eq_refl). Defined.

End WebPreviewFurther.

(** ** Further properties of Dropdown *)

Section DropdownFurther.
Import Dropdown.

(** *** The popover and the events *)

Lemma render_without_menu props (w : World) :
  isOpen w = false ∨ disabled props = true →
  ∃ view, render props w = Some view ∧ menu view = None.
Proof.
  intros Hshut. unfold render.
  assert (isOpen w && negb (disabled props) = false) as ->.
  { destruct Hshut as [-> | ->]; [done|]. by destruct (isOpen w). }
  by eexists.
Qed.

Lemma dispatch_SelectRow_shut props (index : nat) (w : World) :
  isOpen w = false ∨ disabled props = true →
  dispatch props (SelectRow index) w = w.
Proof.
  intros Hshut. unfold dispatch.
  destruct (render_without_menu props w Hshut) as (view & -> & Hmenu).
  by rewrite Hmenu.
Qed.

Lemma dispatch_disabled props (ev : Event) (w : World) :
  disabled props = true → dispatch props ev w = w.
Proof.
  intros Hdis. destruct ev as [|index].
  - unfold dispatch.
    destruct (render_without_menu props w (or_intror Hdis)) as (view & Hview & _).
    rewrite Hview. revert Hview. unfold render.
    destruct (isOpen w && negb (disabled props)).
    + destruct (render_items props); simpl; intros [= <-]; simpl; by rewrite Hdis.
    + intros [= <-]. simpl. by rewrite Hdis.
  - apply dispatch_SelectRow_shut. by right.
Qed.

Lemma dropdown_session_cons props (ev : Event) (evs : list Event) (w : World) :
  session props (ev :: evs) w = session props evs (dispatch props ev w).
Proof. done. Qed.

(** X6.  A disabled dropdown cannot be opened and calls nothing: whatever
    the user does and whatever [isOpen] holds, the state stays as it is and
    the view shows the trigger without chevron and no list. *)
Theorem Dropdown_disabled_is_inert
    (props : DropdownProps) (evs : list Event) (w : World) :
  disabled props = true →
  session props evs w = w ∧
  ∃ view, render props w = Some view ∧ menu view = None ∧
          chevron (trigger view) = None ∧ trigger_disabled (trigger view) = true.
Proof.
  intros Hdis. split.
  - revert w. induction evs as [|ev evs IH]; intros w; [done|].
    by rewrite dropdown_session_cons, dispatch_disabled.
  - unfold render. rewrite Hdis, andb_false_r. by eexists.
Qed.

Lemma Dropdown_disabled_witness :
  let props := {| value := A; items := [A; B];
                  getItemKey := string_of; getItemLabel := string_of;
                  getItemShortLabel := None; renderItem := None;
                  itemClassName := None; disabled := true |} in
  session props [ClickTrigger; SelectRow 0; ClickTrigger] opened = opened ∧
  ∃ view, render props opened = Some view ∧ menu view = None ∧
          chevron (trigger view) = None ∧ trigger_disabled (trigger view) = true.
Proof.
  exact (Dropdown_disabled_is_inert
           {| value := A; items := [A; B];
              getItemKey := string_of; getItemLabel := string_of;
              getItemShortLabel := None; renderItem := None;
              itemClassName := None; disabled := true |}
           [ClickTrigger; SelectRow 0; ClickTrigger] opened eq_refl).
Defined.

(** X7.  While the list is closed the component does not look at the items:
    it renders the trigger alone whatever the collection holds, even one on
    which the open list would throw, and no row can be selected. *)
Theorem Dropdown_closed_ignores_items
    (props : DropdownProps) (index : nat) (w : World) :
  isOpen w = false →
  (∃ view, render props w = Some view ∧ menu view = None) ∧
  dispatch props (SelectRow index) w = w.
Proof.
  intros Hclosed. split.
  - apply render_without_menu. by left.
  - apply dispatch_SelectRow_shut. by left.
Qed.

(** A grouped collection with a [null] element: the open list throws, the
    closed dropdown renders. *)
Lemma Dropdown_closed_ignores_items_witness :
  let props := sample A [to_value (Header "Recent"); JS.VNull] in
  let shut := {| isOpen := false; onSelectCalls := [] |} in
  render props opened = None ∧
  (∃ view, render props shut = Some view ∧ menu view = None) ∧
  dispatch props (SelectRow 1) shut = shut.
Proof.
  split; [reflexivity|].
  exact (Dropdown_closed_ignores_items
           (sample A [to_value (Header "Recent"); JS.VNull]) 1
           {| isOpen := false; onSelectCalls := [] |} eq_refl).
Defined.

(** *** What [onSelect] is called with *)

Lemma dispatch_selects props (els : list Element) (P : JS.value → Prop)
    (ev : Event) (w : World) :
  render_items props = Some els →
  (∀ i h, els !! i ≫= handler_of = Some h → ∃ d, h = Select d ∧ P d) →
  onSelectCalls (dispatch props ev w) = onSelectCalls w ∨
  ∃ d, P d ∧ dispatch props ev w =
              {| isOpen := false; onSelectCalls := onSelectCalls w ++ [d] |}.
Proof.
  intros Hels Hrows. unfold dispatch, render. rewrite Hels.
  destruct (isOpen w && negb (disabled props)); simpl.
  - destruct ev as [|index]; simpl.
    + left. by destruct (disabled props).
    + destruct (els !! index ≫= handler_of) as [h|] eqn:Hh; [|by left].
      destruct (Hrows _ _ Hh) as (d & -> & Hd). right. by exists d.
  - left. destruct ev as [|index]; simpl; [|done]. by destruct (disabled props).
Qed.

Lemma session_selects props (els : list Element) (P : JS.value → Prop)
    (evs : list Event) (w : World) :
  render_items props = Some els →
  (∀ i h, els !! i ≫= handler_of = Some h → ∃ d, h = Select d ∧ P d) →
  ∃ picked : list JS.value, onSelectCalls (session props evs w) = (onSelectCalls w ++ picked)%list ∧
            Forall P picked.
Proof.
  intros Hels Hrows. revert w. induction evs as [|ev evs IH]; intros w.
  { exists []. by rewrite app_nil_r. }
  rewrite dropdown_session_cons.
  destruct (IH (dispatch props ev w)) as (picked & Hcalls & Hpicked).
  destruct (dispatch_selects props els P ev w Hels Hrows) as [Hsame|(d & Hd & Hstep)].
  - exists picked. by rewrite Hcalls, Hsame.
  - exists (d :: picked). split; [|by constructor].
    rewrite Hcalls, Hstep. simpl. by rewrite <- app_assoc.
Qed.

Lemma flat_rows props (i : nat) (h : Handler) :
  (render_flat_item props <$> items props) !! i ≫= handler_of = Some h →
  ∃ d, h = Select d ∧ items props !! i = Some d.
Proof.
  rewrite list_lookup_fmap. destruct (items props !! i) as [item|]; [|done].
  simpl. intros [= <-]. by exists item.
Qed.

Lemma typed_rows props (g : list DropdownItemType) (i : nat) (h : Handler) :
  imap (render_entry props) g !! i ≫= handler_of = Some h →
  ∃ d, h = Select d ∧ g !! i = Some (Item d).
Proof.
  rewrite list_lookup_imap. destruct (g !! i) as [[d|label]|]; [|done..].
  simpl. intros [= <-]. by exists d.
Qed.

Lemma elem_of_item_data (g : list DropdownItemType) (i : nat) (d : JS.value) :
  g !! i = Some (Item d) → d ∈ item_data g.
Proof.
  intros Hi. unfold item_data. apply list_elem_of_omap.
  exists (Item d). split; [|done]. by eapply list_elem_of_lookup_2.
Qed.

Lemma grouped_rows props (els : list Element) (i : nat) (h : Handler) :
  isGroupedItems (items props) = true → render_items props = Some els →
  els !! i ≫= handler_of = Some h →
  ∃ d, h = Select d ∧
       ∃ item, items props !! i = Some item ∧ JS.get item "data" = Some d.
Proof.
  intros Hgrouped Hels. destruct (els !! i) as [el|] eqn:Hel; [|done].
  simpl. intros Hh.
  destruct (render_items_grouped_lookup props els i el Hgrouped Hels Hel)
    as (item & Hitem & Hrow).
  destruct (render_grouped_item_Some _ _ _ _ Hrow)
    as [(_ & Hnone & _)|(d & Hd & ->)]; [congruence|].
  simpl in Hh. injection Hh as <-. exists d. split; [done|]. by exists item.
Qed.

(** When the list cannot be rendered there is no row to select. *)
Lemma session_without_rows props (evs : list Event) (w : World) :
  render_items props = None →
  onSelectCalls (session props evs w) = onSelectCalls w.
Proof.
  intros Hnone. revert w. induction evs as [|ev evs IH]; intros w; [done|].
  rewrite dropdown_session_cons, IH. unfold dispatch, render. rewrite Hnone.
  destruct (isOpen w && negb (disabled props)); simpl; [done|].
  destruct ev as [|index]; simpl; [|done]. by destruct (disabled props).
Qed.

(** X8.  Whatever the user does, calls of [onSelect] are only added to the
    log, and each is made with data of the collection: with an element of a
    collection classified as flat, with the data of an [item] entry of a
    well-typed grouped collection, and in any collection classified as
    grouped with the [data] field of one of its elements. *)
Theorem Dropdown_onSelect_only_with_items
    (props : DropdownProps) (evs : list Event) (w : World) :
  (isGroupedItems (items props) = false →
   ∃ picked : list JS.value,
     onSelectCalls (session props evs w) = (onSelectCalls w ++ picked)%list ∧
     Forall (λ d, d ∈ items props) picked) ∧
  (∀ g, items props = to_value <$> g →
   ∃ picked : list JS.value,
     onSelectCalls (session props evs w) = (onSelectCalls w ++ picked)%list ∧
     Forall (λ d, d ∈ item_data g) picked) ∧
  (isGroupedItems (items props) = true →
   ∃ picked : list JS.value,
     onSelectCalls (session props evs w) = (onSelectCalls w ++ picked)%list ∧
     Forall (λ d, ∃ item, item ∈ items props ∧ JS.get item "data" = Some d) picked).
Proof.
  split_and!.
  - intros Hflat.
    apply (session_selects props (render_flat_item props <$> items props));
      [by apply render_items_flat|].
    intros i h (d & -> & Hd)%flat_rows. exists d. split; [done|].
    by eapply list_elem_of_lookup_2.
  - intros g Hitems.
    apply (session_selects props (imap (render_entry props) g));
      [by apply render_items_typed|].
    intros i h (d & -> & Hd)%typed_rows. exists d. split; [done|].
    by eapply elem_of_item_data.
  - intros Hgrouped. destruct (render_items props) as [els|] eqn:Hels.
    + apply (session_selects props els); [done|].
      intros i h Hh.
      destruct (grouped_rows props els i h Hgrouped Hels Hh)
        as (d & -> & item & Hitem & Hd).
      exists d. split; [done|]. exists item. split; [|done].
      by eapply list_elem_of_lookup_2.
    + exists []. split; [|done].
      by rewrite app_nil_r, session_without_rows.
Qed.

(** In the scenario: the header at position 0 selects nothing, [B] is
    selected once, the list is then closed and opened again, [A] is
    selected. *)
Lemma Dropdown_onSelect_witness :
  session scenario [SelectRow 0; SelectRow 2; SelectRow 1; ClickTrigger; SelectRow 1]
          opened
    = {| isOpen := false; onSelectCalls := [B; A] |} ∧
  ∃ picked : list JS.value,
    onSelectCalls
      (session scenario
         [SelectRow 0; SelectRow 2; SelectRow 1; ClickTrigger; SelectRow 1] opened)
      = ([] ++ picked)%list ∧
    Forall (λ d, d ∈ item_data recent) picked.
Proof.
  split; [reflexivity|].
  exact (proj1 (proj2 (Dropdown_onSelect_only_with_items scenario
                  [SelectRow 0; SelectRow 2; SelectRow 1; ClickTrigger; SelectRow 1]
                  opened)) recent eq_refl).
Defined.

Lemma dispatch_SelectRow_open props (els : list Element) (index : nat)
    (d : JS.value) (w : World) :
  disabled props = false → isOpen w = true →
  render_items props = Some els →
  els !! index ≫= handler_of = Some (Select d) →
  dispatch props (SelectRow index) w =
    {| isOpen := false; onSelectCalls := onSelectCalls w ++ [d] |}.
Proof.
  intros Hen Hopen Hels Hrow. unfold dispatch, render.
  rewrite Hen, Hopen, Hels. simpl. by rewrite Hrow.
Qed.

Lemma rendered_row_handler props (els : list Element) (i : nat) (el : Element)
    (h : Handler) :
  render_items props = Some els → els !! i = Some el → handler_of el = Some h →
  ∃ d, h = Select d.
Proof.
  intros Hels Hel Hh.
  destruct (isGroupedItems (items props)) eqn:Hgrouped.
  - destruct (grouped_rows props els i h Hgrouped Hels) as (d & -> & _).
    { by rewrite Hel. }
    by exists d.
  - rewrite render_items_flat in Hels by done. injection Hels as <-.
    destruct (flat_rows props i h) as (d & -> & _).
    { by rewrite Hel. }
    by exists d.
Qed.

(** X9.  On an open, enabled dropdown, selecting a rendered row calls
    [onSelect] once, with what the row's handler reports, and closes the
    list; a second selection, made before the trigger is clicked again, has
    no effect.  What is reported is the element itself in a collection
    classified as flat, and the [data] field of the element in one
    classified as grouped. *)
Theorem Dropdown_one_selection_per_opening
    (props : DropdownProps) (els : list Element) (i j : nat) (el : Element)
    (h : Handler) (w : World) :
  disabled props = false → isOpen w = true →
  render_items props = Some els → els !! i = Some el → handler_of el = Some h →
  ∃ d, h = Select d ∧
       session props [SelectRow i; SelectRow j] w =
         {| isOpen := false; onSelectCalls := onSelectCalls w ++ [d] |} ∧
       (isGroupedItems (items props) = false → items props !! i = Some d) ∧
       (isGroupedItems (items props) = true →
          ∃ item, items props !! i = Some item ∧ JS.get item "data" = Some d).
Proof.
  intros Hen Hopen Hels Hel Hh.
  destruct (rendered_row_handler props els i el h Hels Hel Hh) as [d ->].
  exists d. split_and!; [done| | |].
  - rewrite !dropdown_session_cons.
    rewrite (dispatch_SelectRow_open props els i d w Hen Hopen Hels)
      by by rewrite Hel.
    by rewrite dispatch_SelectRow_shut by by left.
  - intros Hflat. rewrite render_items_flat in Hels by done. injection Hels as <-.
    destruct (flat_rows props i (Select d)) as (d' & [= <-] & Hd); [|done].
    by rewrite Hel.
  - intros Hgrouped.
    destruct (grouped_rows props els i (Select d) Hgrouped Hels)
      as (d' & [= <-] & Hd); [|done].
    by rewrite Hel.
Qed.

(** In the scenario [B] is selected, then [A] before the list is opened
    again: only [B] is reported. *)
Lemma Dropdown_one_selection_witness :
  ∃ d, Select B = Select d ∧
       session scenario [SelectRow 2; SelectRow 1] opened =
         {| isOpen := false; onSelectCalls := onSelectCalls opened ++ [d] |} ∧
       (isGroupedItems (items scenario) = false → items scenario !! 2 = Some d) ∧
       (isGroupedItems (items scenario) = true →
          ∃ item, items scenario !! 2 = Some item ∧ JS.get item "data" = Some d).
Proof.
  exact (Dropdown_one_selection_per_opening scenario
           (imap (render_entry scenario) recent) 2 1
           (render_entry scenario 2 (Item B)) (Select B) opened
           eq_refl eq_refl eq_refl eq_refl eq_refl).
Defined.

(** *** The grouped branch on arbitrary values *)

Lemma render_grouped_item_nullish props (index : nat) (item : JS.value) :
  is_nullish item = true → render_grouped_item props index item = None.
Proof. by destruct item. Qed.

(** A header whose label is an object without callable [toString] and
    [valueOf] makes the callback throw on the header's key. *)
Example render_grouped_item_bare_label :
  render_grouped_item (sample A [])
    0 (JS.VObject (<["type" := JS.VString "header"]> (<["label" := JS.VObject ∅]> ∅)))
  = None.
Proof. reflexivity. Qed.

(** X10.  A collection classified as grouped makes the open list throw
    whenever one of its elements is [null] or [undefined]: the callback
    reads [item.type] from it. *)
Theorem Dropdown_grouped_throws_on_nullish (props : DropdownProps) (v : JS.value) :
  isGroupedItems (items props) = true →
  v ∈ items props → is_nullish v = true →
  render_items props = None ∧
  ∀ w, isOpen w = true → disabled props = false → render props w = None.
Proof.
  intros Hgrouped [i Hi]%list_elem_of_lookup_1 Hnull.
  assert (render_items props = None) as Hnone.
  { unfold render_items. rewrite Hgrouped. apply mapM_None, Exists_exists.
    exists None. split; [|done].
    apply elem_of_lookup_imap. exists i, v. split; [|done].
    symmetry. by apply render_grouped_item_nullish. }
  split; [done|]. intros w Hopen Hen. unfold render.
  by rewrite Hopen, Hen, Hnone.
Qed.

Lemma Dropdown_grouped_throws_witness :
  render_items (sample A [to_value (Header "Recent"); JS.VNull]) = None ∧
  ∀ w, isOpen w = true →
       disabled (sample A [to_value (Header "Recent"); JS.VNull]) = false →
       render (sample A [to_value (Header "Recent"); JS.VNull]) w = None.
Proof.
  apply (Dropdown_grouped_throws_on_nullish
           (sample A [to_value (Header "Recent"); JS.VNull]) JS.VNull eq_refl).
  - apply list_elem_of_further, list_elem_of_here.
  - reflexivity.
Defined.





(** X12.  Whenever the list renders, in either mode and on any values, it
    has exactly one child per element of the collection, and every child
    that is not a header is the row of a single datum: its key, its selected
    flag, its label and what its [onSelect] reports all come from that
    datum. *)
Theorem Dropdown_rows_come_from_one_datum
    (props : DropdownProps) (els : list Element) :
  render_items props = Some els →
  length els = length (items props) ∧
  ∀ (i : nat) el, els !! i = Some el →
    is_header el = true ∨
    ∃ d cls,
      el = SelectItem (getItemKey props d)
             (bool_decide (getItemKey props d = getItemKey props (value props)))
             (Select d) cls
             (item_child props d
                (bool_decide (getItemKey props d = getItemKey props (value props)))).
Proof.
  unfold render_items. destruct (isGroupedItems (items props)).
  - intros Hels. split.
    + apply length_mapM in Hels. by rewrite length_imap in Hels.
    + intros i el Hi. apply mapM_Some_1 in Hels.
      destruct (Forall2_lookup_r _ _ _ _ _ Hels Hi) as (r & Hr & Hid).
      simpl in Hid. subst r. rewrite list_lookup_imap in Hr.
      destruct (items props !! i) as [item|]; [|done].
      simpl in Hr. injection Hr as Hr.
      destruct (render_grouped_item_Some _ _ _ _ Hr)
        as [(? & _ & _)|(d & _ & ->)]; [by left|].
      right. by eexists d, _.
  - intros [= <-]. split; [by rewrite length_fmap|].
    intros i el. rewrite list_lookup_fmap.
    destruct (items props !! i) as [item|]; [|done].
    intros [= <-]. right. by eexists item, _.
Qed.

Lemma Dropdown_rows_witness :
  length (imap (render_entry scenario) recent) = length (items scenario) ∧
  ∀ (i : nat) el, imap (render_entry scenario) recent !! i = Some el →
    is_header el = true ∨
    ∃ d cls,
      el = SelectItem (getItemKey scenario d)
             (bool_decide (getItemKey scenario d = getItemKey scenario (value scenario)))
             (Select d) cls
             (item_child scenario d
                (bool_decide
                   (getItemKey scenario d = getItemKey scenario (value scenario)))).
Proof.
  exact (Dropdown_rows_come_from_one_datum scenario
           (imap (render_entry scenario) recent) eq_refl).
Defined.

End DropdownFurther.

(** ** Further properties of ToolPermissionModal *)

Section ToolPermissionModalFurther.
Import ToolPermissionModal.

(** *** Trimmed text *)

Lemma append_cons (c : Ascii.ascii) (s1 s2 : string) :
  String c s1 +:+ s2 = String c (s1 +:+ s2).
Proof. done. Qed.

Lemma append_nil_r (s : string) : s +:+ "" = s.
Proof. induction s as [|c s IH]; [done|]. by rewrite append_cons, IH. Qed.

Lemma append_assoc (s1 s2 s3 : string) : s1 +:+ (s2 +:+ s3) = (s1 +:+ s2) +:+ s3.
Proof.
  induction s1 as [|c s1 IH]; [done|]. by rewrite !append_cons, IH.
Qed.

Lemma rev_app_append (s1 s2 : string) :
  String.rev_app s1 s2 = String.rev s1 +:+ s2.
Proof.
  revert s2. induction s1 as [|c s1 IH]; intros s2; [done|].
  unfold String.rev. simpl. rewrite (IH (String c s2)), (IH (String c "")).
  by rewrite <- append_assoc.
Qed.

Lemma rev_append (s1 s2 : string) :
  String.rev (s1 +:+ s2) = String.rev s2 +:+ String.rev s1.
Proof.
  induction s1 as [|c s1 IH].
  - by rewrite append_nil_r.
  - rewrite append_cons. unfold String.rev at 1 3. simpl.
    rewrite !rev_app_append, IH. by rewrite append_assoc.
Qed.

Lemma rev_involutive (s : string) : String.rev (String.rev s) = s.
Proof.
  induction s as [|c s IH]; [done|].
  unfold String.rev at 2. simpl. by rewrite rev_app_append, rev_append, IH.
Qed.

Lemma trimStart_suffix (s : string) : ∃ blanks, s = blanks +:+ JS.trimStart s.
Proof.
  induction s as [|c s [blanks IH]]; [by exists ""|]. simpl.
  destruct (JS.is_white_space c).
  - exists (String c blanks). by rewrite append_cons, <- IH.
  - by exists "".
Qed.

Lemma trimStart_length (s : string) :
  (String.length (JS.trimStart s) ≤ String.length s)%nat.
Proof.
  induction s as [|c s IH]; simpl; [done|].
  destruct (JS.is_white_space c); simpl; lia.
Qed.

Lemma trimStart_idemp (s : string) : JS.trimStart (JS.trimStart s) = JS.trimStart s.
Proof.
  induction s as [|c s IH]; simpl; [done|].
  destruct (JS.is_white_space c) eqn:Hc; [done|]. simpl. by rewrite Hc.
Qed.

Lemma trimStart_prefix (s1 s2 : string) :
  JS.trimStart (s1 +:+ s2) = s1 +:+ s2 → JS.trimStart s1 = s1.
Proof.
  destruct s1 as [|c s1]; [done|]. rewrite append_cons. simpl.
  destruct (JS.is_white_space c); [|done].
  intros Heq. pose proof (trimStart_length (s1 +:+ s2)) as Hlen.
  rewrite Heq in Hlen. simpl in Hlen. lia.
Qed.

(** The trimmed text starts and ends with a character that is not blank:
    trimming it again changes nothing. *)
Lemma trim_idemp (s : string) : JS.trim (JS.trim s) = JS.trim s.
Proof.
  unfold JS.trim, JS.trimEnd.
  set (a := JS.trimStart s). set (b := JS.trimStart (String.rev a)).
  assert (JS.trimStart (String.rev b) = String.rev b) as Hhead.
  { destruct (trimStart_suffix (String.rev a)) as [blanks Hblanks].
    fold b in Hblanks.
    apply (trimStart_prefix _ (String.rev blanks)).
    rewrite <- rev_append, <- Hblanks, rev_involutive.
    apply trimStart_idemp. }
  rewrite Hhead, rev_involutive. unfold b. by rewrite trimStart_idemp.
Qed.

(** *** The transitions of the dialog *)

(** Every event either changes nothing, or is one of five transitions, each
    available only on a dialog that is shown and not loading. *)
Lemma dispatch_cases (props : ToolPermissionModalProps) (ev : Event) (w : World) :
  dispatch props ev w = w ∨
  (isLoading props = false ∧ is_Some (request props) ∧
   ((showRejectInput w = false ∧ ev = Press "Reject" ∧
     dispatch props ev w =
       {| showRejectInput := true;
          alternativeInstruction := alternativeInstruction w;
          calls := calls w |}) ∨
    (showRejectInput w = false ∧ ev = Press "Approve" ∧
     dispatch props ev w =
       {| showRejectInput := false;
          alternativeInstruction := alternativeInstruction w;
          calls := calls w ++ [onApprove] |}) ∨
    (showRejectInput w = true ∧ ev = Press "Just Reject" ∧
     dispatch props ev w =
       {| showRejectInput := false; alternativeInstruction := "";
          calls := calls w ++ [onReject None] |}) ∨
    (showRejectInput w = true ∧ ev = Press "Send Instructions" ∧
     JS.trim (alternativeInstruction w) ≠ "" ∧
     dispatch props ev w =
       {| showRejectInput := false; alternativeInstruction := "";
          calls :=
            calls w ++ [onReject (Some (JS.trim (alternativeInstruction w)))] |}) ∨
    (showRejectInput w = true ∧ ∃ s, ev = Input s ∧
     dispatch props ev w =
       {| showRejectInput := true; alternativeInstruction := s;
          calls := calls w |}))).
Proof.
  destruct (isLoading props) eqn:Hbusy; [left; by apply dispatch_loading|].
  destruct (request props) as [r|] eqn:Hreq; [|left; by apply dispatch_hidden].
  unfold dispatch, render. rewrite Hreq, Hbusy.
  destruct (showRejectInput w) eqn:Hshow, ev as [l|s];
    cbn [buttons rejectInput find label text_disabled].
  - case_bool_decide as Hjust; [subst l|].
    { right. split_and!; [done..|]. right. right. left.
      split_and!; [done..|]. unfold click. simpl. unfold handleJustReject. done. }
    case_bool_decide as Hsend; [subst l|by left].
    unfold click. cbn [disabled onClick orb run]. unfold JS.truthy_string.
    case_bool_decide as Hblank; [by left|]. cbn [negb].
    right. split_and!; [done..|]. do 3 right. left.
    split_and!; [done..|]. unfold handleReject, JS.truthy_string.
    rewrite Hshow. by rewrite bool_decide_eq_false_2.
  - right. split_and!; [done..|]. do 4 right. split; [done|]. exists s.
    split; [done|]. unfold setAlternativeInstruction. by rewrite Hshow.
  - case_bool_decide as Hreject; [subst l|].
    { right. split_and!; [done..|]. left. split_and!; [done..|].
      unfold click. simpl. unfold handleReject. by rewrite Hshow. }
    case_bool_decide as Happrove; [subst l|by left].
    right. split_and!; [done..|]. right. left. split_and!; [done..|].
    unfold click. simpl. by rewrite Hshow.
  - by left.
Qed.

Lemma dispatch_tidy (props : ToolPermissionModalProps) (ev : Event) (w : World) :
  tidy w → tidy (dispatch props ev w).
Proof.
  intros Htidy.
  destruct (dispatch_cases props ev w)
    as [->|(_ & _ & [(Hshow & _ & ->)|[(Hshow & _ & ->)|[(_ & _ & ->)|
        [(_ & _ & _ & ->)|(_ & s & _ & ->)]]]])]; unfold tidy; simpl; try done.
  intros _. by apply Htidy.
Qed.

Lemma session_snoc steps step (w : World) :
  session (steps ++ [step]) w = dispatch step.1 step.2 (session steps w).
Proof. unfold session. by rewrite foldl_app. Qed.

Lemma session_tidy steps : tidy (session steps initial).
Proof.
  induction steps as [|step steps IH] using rev_ind; [done|].
  rewrite session_snoc. by apply dispatch_tidy.
Qed.

(** X13.  However the dialog was used since it was mounted, and whatever
    props it was rendered with, the text is empty whenever the reject field
    is not shown: Approve is only ever offered on a state without text. *)
Theorem ToolPermissionModal_hidden_field_has_no_text
    (steps : list (ToolPermissionModalProps * Event)) :
  showRejectInput (session steps initial) = false →
  alternativeInstruction (session steps initial) = "".
Proof. apply session_tidy. Qed.

Lemma ToolPermissionModal_hidden_field_witness :
  alternativeInstruction
    (session [(asking bash, Press "Reject"); (asking bash, Input "use rg");
              (hidden, Input "lost"); (asking edit, Press "Just Reject")] initial)
  = "".
Proof.
  exact (ToolPermissionModal_hidden_field_has_no_text
           [(asking bash, Press "Reject"); (asking bash, Input "use rg");
            (hidden, Input "lost"); (asking edit, Press "Just Reject")] eq_refl).
Defined.

Lemma dispatch_calls (props : ToolPermissionModalProps) (ev : Event) (w : World) :
  calls (dispatch props ev w) = calls w ∨
  ∃ c : Call, calls (dispatch props ev w) = (calls w ++ [c])%list.
Proof.
  destruct (dispatch_cases props ev w)
    as [->|(_ & _ & [(_ & _ & ->)|[(_ & _ & ->)|[(_ & _ & ->)|
        [(_ & _ & _ & ->)|(_ & s & _ & ->)]]]])]; simpl; eauto.
Qed.

(** X14.  The log of callback calls only grows, and by at most one call per
    event: a single press never resolves a request twice. *)
Theorem ToolPermissionModal_at_most_one_call_per_event
    (steps : list (ToolPermissionModalProps * Event)) (w : World) :
  calls w `prefix_of` calls (session steps w) ∧
  (length (calls (session steps w)) ≤ length (calls w) + length steps)%nat.
Proof.
  induction steps as [|step steps [IHprefix IHlength]] using rev_ind.
  { split; [done|simpl; lia]. }
  rewrite session_snoc, length_app. simpl.
  destruct (dispatch_calls step.1 step.2 (session steps w)) as [->|[c ->]].
  - split; [done|lia].
  - split; [by apply prefix_app_r|]. rewrite length_app. simpl. lia.
Qed.

Lemma not_snoc_self {A} (l : list A) (x : A) : (l ++ [x])%list ≠ l.
Proof.
  intros Heq. apply (f_equal length) in Heq. rewrite length_app in Heq.
  simpl in Heq. lia.
Qed.

(** X15.  Over any use of the dialog since it was mounted, every event that
    calls a callback (approve, plain reject or reject with text) leaves the
    reject field hidden and the text empty. *)
Theorem ToolPermissionModal_resolving_clears_state
    (steps : list (ToolPermissionModalProps * Event))
    (props : ToolPermissionModalProps) (ev : Event) :
  let w := session steps initial in
  calls (dispatch props ev w) ≠ calls w →
  showRejectInput (dispatch props ev w) = false ∧
  alternativeInstruction (dispatch props ev w) = "".
Proof.
  intros w Hcalled. pose proof (session_tidy steps) as Htidy. fold w in Htidy.
  destruct (dispatch_cases props ev w)
    as [Heq|(_ & _ & [(_ & _ & Heq)|[(Hshow & _ & Heq)|[(_ & _ & Heq)|
        [(_ & _ & _ & Heq)|(_ & s & _ & Heq)]]]])];
    rewrite Heq in Hcalled |- *; simpl in *; try done.
  split; [done|]. by apply Htidy.
Qed.

Lemma ToolPermissionModal_resolving_witness :
  let w := session [(asking bash, Press "Reject"); (asking bash, Input " no ")]
             initial in
  showRejectInput (dispatch (asking bash) (Press "Send Instructions") w) = false ∧
  alternativeInstruction (dispatch (asking bash) (Press "Send Instructions") w) = "".
Proof.
  apply (ToolPermissionModal_resolving_clears_state
           [(asking bash, Press "Reject"); (asking bash, Input " no ")]
           (asking bash) (Press "Send Instructions")).
  vm_compute. discriminate.
Defined.

(** X16.  A callback is only called from a dialog that is shown and not
    loading.  [onApprove] is only called while the reject field is hidden,
    [onReject] only while it is shown; and the text passed to [onReject] is
    the trimmed content of the field, never empty and without blanks at
    either end. *)
Theorem ToolPermissionModal_call_provenance
    (props : ToolPermissionModalProps) (ev : Event) (w : World) (c : Call) :
  calls (dispatch props ev w) = (calls w ++ [c])%list →
  isLoading props = false ∧ is_Some (request props) ∧
  match c with
  | onApprove => showRejectInput w = false ∧ ev = Press "Approve"
  | onReject None => showRejectInput w = true ∧ ev = Press "Just Reject"
  | onReject (Some t) =>
      showRejectInput w = true ∧ ev = Press "Send Instructions" ∧
      t = JS.trim (alternativeInstruction w) ∧ t ≠ "" ∧ JS.trim t = t
  end.
Proof.
  destruct (dispatch_cases props ev w)
    as [->|(Hbusy & Hreq & [(_ & _ & ->)|[(Hshow & Hev & ->)|[(Hshow & Hev & ->)|
        [(Hshow & Hev & Htext & ->)|(_ & s & _ & ->)]]]])]; simpl;
    intros Hcalls;
    try (symmetry in Hcalls; by apply not_snoc_self in Hcalls);
    apply app_inv_head in Hcalls as [= <-]; split_and!; try done.
  apply trim_idemp.
Qed.

Lemma ToolPermissionModal_call_provenance_witness :
  let w := {| showRejectInput := true; alternativeInstruction := " no ";
              calls := [onApprove] |} in
  isLoading (asking bash) = false ∧ is_Some (request (asking bash)) ∧
  showRejectInput w = true ∧
  Press "Send Instructions" = Press "Send Instructions" ∧
  "no" = JS.trim (alternativeInstruction w) ∧ "no" ≠ "" ∧ JS.trim "no" = "no".
Proof.
  exact (ToolPermissionModal_call_provenance (asking bash)
           (Press "Send Instructions")
           {| showRejectInput := true; alternativeInstruction := " no ";
              calls := [onApprove] |}
           (onReject (Some "no")) eq_refl).
Defined.

(** X17.  No enabled button is without effect.  Running the handler of an
    enabled button either calls exactly one callback and leaves the reject
    field hidden, or it is the Reject button of the normal state, which
    reveals the field and calls nothing.  In particular "Send Instructions"
    is enabled only when [handleReject] will send. *)
Theorem ToolPermissionModal_enabled_buttons_act
    (props : ToolPermissionModalProps) (w : World) (view : View) (b : Button) :
  render props w = Some view → b ∈ buttons view → disabled b = false →
  (∃ c : Call, calls (run (onClick b) w) = (calls w ++ [c])%list ∧
        showRejectInput (run (onClick b) w) = false) ∨
  (label b = "Reject" ∧ showRejectInput w = false ∧
   run (onClick b) w =
     {| showRejectInput := true;
        alternativeInstruction := alternativeInstruction w;
        calls := calls w |}).
Proof.
  unfold render. destruct (request props) as [r|]; [|done].
  intros [= <-]. simpl. destruct (showRejectInput w) eqn:Hshow.
  - intros [->|[->|?%elem_of_nil]%elem_of_cons]%elem_of_cons; [| |done]; simpl.
    + intros _. left. by eexists.
    + intros [_ Htext%negb_false_iff]%orb_false_iff. left.
      unfold handleReject. rewrite Hshow, Htext. simpl. by eexists.
  - intros [->|[->|?%elem_of_nil]%elem_of_cons]%elem_of_cons; [| |done]; simpl.
    + intros _. right. split_and!; [done..|]. unfold handleReject. by rewrite Hshow.
    + intros _. left. by eexists.
Qed.

Lemma ToolPermissionModal_enabled_buttons_witness :
  let w := {| showRejectInput := true; alternativeInstruction := " no ";
              calls := [] |} in
  let send := {| label := "Send Instructions"; onClick := HandleReject;
                 disabled := false |} in
  (∃ c : Call, calls (run (onClick send) w) = (calls w ++ [c])%list ∧
        showRejectInput (run (onClick send) w) = false) ∨
  (label send = "Reject" ∧ showRejectInput w = false ∧
   run (onClick send) w =
     {| showRejectInput := true;
        alternativeInstruction := alternativeInstruction w;
        calls := calls w |}).
Proof.
  apply (ToolPermissionModal_enabled_buttons_act (asking bash)
           {| showRejectInput := true; alternativeInstruction := " no ";
              calls := [] |} _
           {| label := "Send Instructions"; onClick := HandleReject;
              disabled := false |} eq_refl).
  - apply list_elem_of_further, list_elem_of_here.
  - reflexivity.
Defined.

(** X18.  Once revealed, the reject field can only be left by rejecting: an
    event that hides it calls [onReject].  Nothing leads back from the
    revealed state to the one that offers Approve. *)
Theorem ToolPermissionModal_field_hidden_only_by_reject
    (props : ToolPermissionModalProps) (ev : Event) (w : World) :
  showRejectInput w = true →
  showRejectInput (dispatch props ev w) = false →
  ∃ text : option string, calls (dispatch props ev w) = (calls w ++ [onReject text])%list.
Proof.
  intros Hshow.
  destruct (dispatch_cases props ev w)
    as [->|(_ & _ & [(_ & _ & ->)|[(Hhidden & _ & ->)|[(_ & _ & ->)|
        [(_ & _ & _ & ->)|(_ & s & _ & ->)]]]])]; simpl; intros Hnow;
    try congruence; by eexists.
Qed.

Lemma ToolPermissionModal_field_hidden_witness :
  let w := {| showRejectInput := true; alternativeInstruction := "";
              calls := [] |} in
  ∃ text : option string,
    calls (dispatch (asking bash) (Press "Just Reject") w)
    = (calls w ++ [onReject text])%list.
Proof.
  exact (ToolPermissionModal_field_hidden_only_by_reject (asking bash)
           (Press "Just Reject")
           {| showRejectInput := true; alternativeInstruction := "";
              calls := [] |} eq_refl eq_refl).
Defined.

End ToolPermissionModalFurther.

(** ** Properties of GeneralSettingsTab *)

Section GeneralSettingsTabProperties.
Import GeneralSettingsTab.
#[local] Open Scope list_scope.

Lemma nullish_or_defined (v d : JS.value) :
  d ≠ JS.VUndefined → d ≠ JS.VNull →
  nullish_or v d ≠ JS.VUndefined ∧ nullish_or v d ≠ JS.VNull.
Proof. by destruct v. Qed.

(** X19.  The tab renders one secret input per field descriptor, in order.
    The input of a field shows the stored value of that field, or the empty
    string when nothing, [null] or [undefined] is stored, and its two
    handlers call [onSecretChange] and [onToggleVisibility] exactly once,
    with the key of that field and the text as typed. *)
Theorem GeneralSettingsTab_inputs_follow_fields (props : GeneralSettingsTabProps) :
  length (secrets (render props)) = length (fields props) ∧
  ∀ (i : nat) field, fields props !! i = Some field →
    ∃ row, secrets (render props) !! i = Some row ∧
      row_key row = key field ∧
      input_value row ≠ JS.VUndefined ∧ input_value row ≠ JS.VNull ∧
      (∀ v, settings props !! key field = Some v →
            v ≠ JS.VUndefined → v ≠ JS.VNull → input_value row = v) ∧
      (settings props !! key field = None → input_value row = JS.VString "") ∧
      (settings props !! key field = Some JS.VNull →
         input_value row = JS.VString "") ∧
      (∀ text log,
         change (input_onChange row) text log =
           log ++ [onSecretChange (key field) text]) ∧
      (∀ log,
         toggle (input_onToggleVisibility row) log =
           log ++ [onToggleVisibility (key field)]).
Proof.
  split; [apply length_fmap|].
  intros i field Hi. exists (render_field props field).
  split; [simpl; by rewrite list_lookup_fmap, Hi|].
  unfold render_field, read. simpl.
  split_and!; try done.
  - by apply nullish_or_defined.
  - by apply nullish_or_defined.
  - intros v -> ??. by destruct v.
  - by intros ->.
  - by intros ->.
Qed.

(** Nothing is stored for the first field and [null] for the second: both
    inputs show the empty string. *)
Lemma GeneralSettingsTab_inputs_witness :
  ∃ row, secrets (render fresh_install) !! 1 = Some row ∧
    row_key row = "github_personal_access_token" ∧
    input_value row = JS.VString "" ∧
    change (input_onChange row) "ghp_abc" [] =
      [onSecretChange "github_personal_access_token" "ghp_abc"].
Proof.
  destruct (proj2 (GeneralSettingsTab_inputs_follow_fields fresh_install)
              1 github eq_refl)
    as (row & Hrow & Hkey & _ & _ & _ & _ & Hnull & Hchange & _).
  exists row. split_and!; [done..| |].
  - by apply Hnull.
  - apply Hchange.
Defined.

(** The sound switch is checked when [notification_sound_enabled] is
    missing, [null] or [undefined], and shows the stored value otherwise. *)
Lemma sound_checked_default (props : GeneralSettingsTabProps) :
  let stored := settings props !! "notification_sound_enabled" in
  (stored = None ∨ stored = Some JS.VNull ∨ stored = Some JS.VUndefined →
     sound_checked (render props) = JS.VBoolean true) ∧
  (∀ b, stored = Some (JS.VBoolean b) → sound_checked (render props) = JS.VBoolean b).
Proof.
  intros stored. subst stored. simpl. unfold read. split.
  - by intros [->|[->| ->]].
  - by intros b ->.
Qed.

End GeneralSettingsTabProperties.
